(** * Soldrive dashboard: the access-directory client

    A shallow embedding of the client code of the Soldrive dashboard:

    - [src/hooks/useSoldriveProgram.ts]: address derivation, the request
      wrappers around the ledger program, and the list views;
    - the file-list component: loading the list, the privacy toggle with
      its confirmation dialog and its set of files being processed, sharing
      and downloading a file;
    - [src/components/SharedFiles.tsx]: loading the two views, the revoke
      handler with its set of keys being revoked, and the revoke buttons.

    The ledger program, the RPC node and the web3 library are outside the
    repository.  They appear here as two interfaces ([Web3] and [Cluster]);
    every definition of the client is stated over arbitrary instances. *)

From stdpp Require Import base strings list gmap.
From Stdlib Require Import ZArith NArith Ascii String Lia.

Local Open Scope N_scope.
Local Open Scope list_scope.

(** Linear arithmetic with division and remainder by constants. *)
Ltac div_lia := zify; Z.to_euclidean_division_equations; lia.

(** ** JavaScript strings and buffers *)

(** A JavaScript string is a sequence of UTF-16 code units; a [Buffer] is a
    sequence of octets.  Both are lists of [N]. *)
Abbreviation jsstring := (list N).
Abbreviation buffer := (list N).

(** A string literal of the source (ASCII), as code units. *)
Definition lit (s : string) : jsstring :=
  map N_of_ascii (list_ascii_of_string s).

(** [0xD800 <= c <= 0xDBFF]: a leading (high) surrogate. *)
Definition isLeadSurrogate (c : N) : bool := (0xD800 <=? c) && (c <=? 0xDBFF).

(** [0xDC00 <= c <= 0xDFFF]: a trailing (low) surrogate. *)
Definition isTrailSurrogate (c : N) : bool := (0xDC00 <=? c) && (c <=? 0xDFFF).

(** UTF-8 octets of one code point. *)
Definition utf8CodePoint (cp : N) : buffer :=
  if cp <? 0x80 then [cp]
  else if cp <? 0x800 then
    [N.lor 0xC0 (N.shiftr cp 6); N.lor 0x80 (N.land cp 0x3F)]
  else if cp <? 0x10000 then
    [N.lor 0xE0 (N.shiftr cp 12);
     N.lor 0x80 (N.land (N.shiftr cp 6) 0x3F);
     N.lor 0x80 (N.land cp 0x3F)]
  else
    [N.lor 0xF0 (N.shiftr cp 18);
     N.lor 0x80 (N.land (N.shiftr cp 12) 0x3F);
     N.lor 0x80 (N.land (N.shiftr cp 6) 0x3F);
     N.lor 0x80 (N.land cp 0x3F)].

(** The code point of a surrogate pair. *)
Definition surrogatePair (hi lo : N) : N :=
  0x10000 + N.shiftl (hi - 0xD800) 10 + (lo - 0xDC00).

(** U+FFFD, which stands for a surrogate that has no partner. *)
Definition replacementChar : buffer := [0xEF; 0xBF; 0xBD].

(** [Buffer.from(str)]: the UTF-8 encoding of a string, as Node's [Buffer]
    and the [buffer] package of the browser compute it.  A surrogate pair is
    one code point of four octets; an unpaired surrogate is encoded as
    U+FFFD. *)
Fixpoint Buffer_from (s : jsstring) : buffer :=
  match s with
  | [] => []
  | c :: rest =>
    if isLeadSurrogate c then
      match rest with
      | d :: rest' =>
        if isTrailSurrogate d
        then utf8CodePoint (surrogatePair c d) ++ Buffer_from rest'
        else replacementChar ++ Buffer_from rest
      | [] => replacementChar
      end
    else if isTrailSurrogate c then replacementChar ++ Buffer_from rest
    else utf8CodePoint c ++ Buffer_from rest
  end.

(** A string is well formed when every surrogate in it is half of a pair and
    every code unit is below [0x10000]. *)
Fixpoint wellFormed (s : jsstring) : bool :=
  match s with
  | [] => true
  | c :: rest =>
    if isLeadSurrogate c then
      match rest with
      | d :: rest' => isTrailSurrogate d && wellFormed rest'
      | [] => false
      end
    else negb (isTrailSurrogate c) && (c <? 0x10000) && wellFormed rest
  end.

(** The octets of a code point, in arithmetic. *)
Definition octets (cp : N) : buffer :=
  if cp <? 0x80 then [cp]
  else if cp <? 0x800 then [0xC0 + cp / 64; 0x80 + cp mod 64]
  else if cp <? 0x10000 then
    [0xE0 + cp / 64 / 64; 0x80 + (cp / 64) mod 64; 0x80 + cp mod 64]
  else [0xF0 + cp / 64 / 64 / 64; 0x80 + (cp / 64 / 64) mod 64;
        0x80 + (cp / 64) mod 64; 0x80 + cp mod 64].

(** The number of octets a first octet announces. *)
Definition announced (b0 : N) : nat :=
  if b0 <? 0x80 then 1 else if b0 <? 0xE0 then 2 else if b0 <? 0xF0 then 3 else 4.

(** A unit of a well-formed string with its code point: a code unit that is
    no surrogate, or a leading surrogate followed by a trailing one. *)
Inductive Token : N → jsstring → Prop :=
| token_unit c :
    isLeadSurrogate c = false → isTrailSurrogate c = false → c < 0x10000 →
    Token c [c]
| token_pair hi lo :
    isLeadSurrogate hi = true → isTrailSurrogate lo = true →
    Token (surrogatePair hi lo) [hi; lo].

Inductive Tokens : jsstring → Prop :=
| tokens_nil : Tokens []
| tokens_cons cp u rest : Token cp u → Tokens rest → Tokens (u ++ rest).

(** [s.startsWith(pat)] on code units. *)
Fixpoint startsWith (pat s : jsstring) : bool :=
  match pat, s with
  | [], _ => true
  | _ :: _, [] => false
  | p :: pat', c :: s' => (p =? c) && startsWith pat' s'
  end.

(** [s.includes(pat)]: [pat] occurs in [s] as a substring. *)
Fixpoint includes (pat s : jsstring) : bool :=
  startsWith pat s ||
  match s with
  | [] => false
  | _ :: s' => includes pat s'
  end.

(** A thrown value.  The handlers read it through [error?.message] only, so
    what matters is whether there is a message, and which. *)
Record JsError := { message : option jsstring }.

(** [new Error(msg)]. *)
Definition newError (msg : string) : JsError := {| message := Some (lit msg) |}.

(** [error?.message?.includes(pat)]. *)
Definition message_includes (pat : string) (error : JsError) : bool :=
  match message error with
  | Some m => includes (lit pat) m
  | None => false
  end.

(** ** The web3 library *)

(** What the client uses of [@solana/web3.js], and the two constants it
    imports from [@/lib/solana/config] and [SystemProgram].  The library and
    the constants are not part of the repository: the client is modelled over
    any instance. *)
Class Web3 := {
  PublicKey : Type;
  PublicKey_eq_dec :: EqDecision PublicKey;
  (** [pk.toBase58()] *)
  toBase58 : PublicKey → jsstring;
  (** [pk.toBuffer()] *)
  toBuffer : PublicKey → buffer;
  (** [new PublicKey(str)]: throws on a string that is no address. *)
  newPublicKey : jsstring → JsError + PublicKey;
  (** [PublicKey.findProgramAddressSync(seeds, programId)]: the derived
      address and its bump seed; throws when a seed is too long or no bump
      seed is found. *)
  findProgramAddressSync : list buffer → PublicKey → JsError + PublicKey * N;
  PROGRAM_ID : PublicKey;
  SystemProgram_programId : PublicKey;
}.

(** ** Accounts of the ledger program, as the client reads them *)

Inductive AccessLevel := read | write | admin.

Inductive FileStatus := uploading | processing | active.

Section Accounts.
Context `{Web3}.

(** A decoded [fileRecord] account.  The owner is the field the client
    matches at offset 8 in [getUserFiles]. *)
Record FileAccount := {
  fa_owner : PublicKey;
  fileName : jsstring;
  fileSize : Z;
  primaryStorage : jsstring;
  status : FileStatus;
  isPublic : bool;
  createdAt : Z;
}.

(** A decoded [sharedAccess] account; the first three fields in the order
    the offsets of the source give them (8: file record, 40: owner,
    72: shared with). *)
Record SharedAccessAccount := {
  fileRecord : PublicKey;
  sa_owner : PublicKey;
  sharedWith : PublicKey;
  accessLevel : AccessLevel;
  expiresAt : option Z;
  isActive : bool;
}.

(** An entry of [program.account.<name>.all()]: [{publicKey, account}]. *)
Record ProgramAccount (A : Type) := {
  publicKey : PublicKey;
  account : A;
}.

(** [{memcmp: {offset, bytes}}]. *)
Record Memcmp := {
  offset : N;
  bytes : jsstring;
}.

(** What [conn.getAccountInfo] returns for an address that has an account. *)
Record AccountInfo := {
  lamports : N;
  data : buffer;
}.

(** The instructions of the ledger program, with their arguments. *)
Inductive Instruction :=
| initialize
| ix_createUserProfile
| ix_createFile (fileName : jsstring) (fileSize : Z) (fileHash : list Z)
                (chunkCount : Z) (timestamp : Z)
| ix_registerStorage (ipfsCid : jsstring) (merkleRoot : list Z)
| ix_finalizeFile
| ix_makePublic
| ix_makePrivate
| ix_grantAccess (sharedWith : PublicKey) (accessLevel : AccessLevel)
                 (expiresAt : option Z)
| ix_revokeAccess.

(** [program.methods.<ix>(args).accounts({...})]: a request ready for
    [.rpc()]. *)
Record Tx := {
  instruction : Instruction;
  accounts : list (string * PublicKey);
}.

(** [new Program(IDL, provider)].  The IDL is not in the sources; the client
    tests which account namespaces it declares. *)
Record Program := {
  account_fileRecord : bool;
  account_sharedAccess : bool;
}.

(** [useWallet()]. *)
Record Wallet := {
  wallet_publicKey : option PublicKey;
}.

(** What a call of the client does to the world outside: the requests it
    sends to the RPC node and the lines it writes to the console, in
    order. *)
Inductive Effect :=
| GetAccountInfo (address : PublicKey)
| Rpc (tx : Tx)
| AllFileRecord (filter : Memcmp)
| AllSharedAccess (filter : Memcmp)
| FetchFileRecord (address : PublicKey)
| ConsoleWarn (msg : string)
| ConsoleError (msg : string) (e : JsError).

End Accounts.

Arguments publicKey {_ _} _.
Arguments account {_ _} _.

(** ** The cluster *)

(** The RPC node and the ledger behind it: a state and the answer to each
    request, which may be a thrown error, with the state after it.  The
    clock of [Date.now()] (milliseconds) is part of the state. *)
Class Cluster `{Web3} := {
  World : Type;
  getAccountInfo : PublicKey → World → (JsError + option AccountInfo) * World;
  rpc : PublicKey → Tx → World → (JsError + jsstring) * World;
  fileRecord_all :
    Memcmp → World → (JsError + list (ProgramAccount FileAccount)) * World;
  sharedAccess_all :
    Memcmp → World → (JsError + list (ProgramAccount SharedAccessAccount)) * World;
  fileRecord_fetch : PublicKey → World → (JsError + FileAccount) * World;
  Date_now : World → Z;
}.

(** ** Asynchronous calls of the client *)

Section Async.
Context `{Cluster}.

(** An [async] function of the hook, run to completion: from a state of the
    world it resolves to a value or rejects with an error, leaves the world in
    a new state, and has had the listed effects. *)
Definition M (A : Type) : Type := World → (JsError + A) * World * list Effect.

Definition ret {A} (a : A) : M A := λ w, (inr a, w, []).

(** [throw e]. *)
Definition throw {A} (e : JsError) : M A := λ w, (inl e, w, []).

(** [const x = await m; k x]: a rejection of [m] skips [k]. *)
Definition bind {A B} (m : M A) (k : A → M B) : M B := λ w,
  match m w with
  | (inl e, w1, fx) => (inl e, w1, fx)
  | (inr a, w1, fx) =>
    match k a w1 with
    | (r, w2, fx') => (r, w2, fx ++ fx')
    end
  end.

(** [try { m } catch (e) { h e }]. *)
Definition try_catch {A} (m : M A) (h : JsError → M A) : M A := λ w,
  match m w with
  | (inl e, w1, fx) =>
    match h e w1 with
    | (r, w2, fx') => (r, w2, fx ++ fx')
    end
  | (inr a, w1, fx) => (inr a, w1, fx)
  end.

(** One request to the node: its answer, and the request in the effects.
    Requests are answered in the order in which they were sent. *)
Definition request {A} (fx : Effect) (ask : World → (JsError + A) * World) : M A :=
  λ w, match ask w with (r, w1) => (r, w1, [fx]) end.

(** [await Promise.all([r1, r2])] for two requests to the node: both are
    sent, in this order, whether or not the other one fails; the result is
    the pair of answers, or the error of one that failed. *)
Definition promise_all2 {A B} (fx1 : Effect) (ask1 : World → (JsError + A) * World)
    (fx2 : Effect) (ask2 : World → (JsError + B) * World) : M (A * B) := λ w,
  match ask1 w with
  | (r1, w1) =>
    match ask2 w1 with
    | (r2, w2) =>
      (match r1, r2 with
       | inr a, inr b => inr (a, b)
       | inl e, _ => inl e
       | _, inl e => inl e
       end, w2, [fx1; fx2])
    end
  end.

(** [await Promise.all(l.map(f))] for an [f] that sends one request and
    catches its own errors: the requests are sent, and answered, in the
    order of the list. *)
Fixpoint promise_all_map {A B} (f : A → M B) (l : list A) : M (list B) :=
  match l with
  | [] => ret []
  | a :: l' =>
    bind (f a) (λ b, bind (promise_all_map f l') (λ bs, ret (b :: bs)))
  end.

(** A pure library call that may throw. *)
Definition lift {A} (r : JsError + A) : M A := λ w, (r, w, []).

(** A line on the console. *)
Definition console (fx : Effect) : M unit := λ w, (inr tt, w, [fx]).

End Async.

#[global] Instance M_ret `{Cluster} : MRet M := @ret _ _.
#[global] Instance M_bind `{Cluster} : MBind M := λ A B k m, bind m k.

(** ** The hook: [useSoldriveProgram] *)

Section Hook.
Context `{Cluster}.

(** [SharedEntry]: a grant joined with its parent file record, [file] being
    [null] when the record could not be fetched. *)
Record SharedEntry := {
  sharedAccess : ProgramAccount SharedAccessAccount;
  file : option (ProgramAccount FileAccount);
}.

(** [useMemo(() => wallet.publicKey ? new Program(IDL, provider) : null)]. *)
Definition useMemo_program (idl : Program) (wallet : Wallet) : option Program :=
  match wallet_publicKey wallet with
  | None => None
  | Some _ => Some idl
  end.

Variable program : option Program.
Variable wallet : Wallet.

(** The address part of [findProgramAddressSync]'s result: [const [pda] = ...]. *)
Definition pda_of (seeds : list buffer) : M PublicKey :=
  lift (match findProgramAddressSync seeds PROGRAM_ID with
        | inl e => inl e
        | inr (pda, _) => inr pda
        end).

Definition getUserProfilePDA (userPubkey : PublicKey) : M PublicKey :=
  pda_of [Buffer_from (lit "user_profile"); toBuffer userPubkey].

Definition getConfigPDA : M PublicKey :=
  pda_of [Buffer_from (lit "config")].

Definition getFileRecordPDA (owner : PublicKey) (fileName : jsstring) : M PublicKey :=
  pda_of [Buffer_from (lit "file"); toBuffer owner; Buffer_from fileName].

Definition getSharedAccessPDA (fileRecordPDA sharedWith : PublicKey) : M PublicKey :=
  pda_of [Buffer_from (lit "shared_access"); toBuffer fileRecordPDA; toBuffer sharedWith].

(** [if (!program || !wallet.publicKey) throw new Error('Wallet not connected')],
    and past it the program and the key. *)
Definition connected : M (Program * PublicKey) :=
  match program, wallet_publicKey wallet with
  | Some p, Some pk => mret (p, pk)
  | _, _ => throw (newError "Wallet not connected")
  end.

(** [await builder.rpc()], signed by the wallet of the provider. *)
Definition send (signer : PublicKey) (tx : Tx) : M jsstring :=
  request (Rpc tx) (rpc signer tx).

Definition createUserProfile : M jsstring :=
  '(_, user) ← connected;
  userProfilePDA ← getUserProfilePDA user;
  existing ← request (GetAccountInfo userProfilePDA) (getAccountInfo userProfilePDA);
  match existing with
  | Some _ => mret (lit "already-initialized")
  | None =>
    send user {| instruction := ix_createUserProfile;
                 accounts := [("userProfile", userProfilePDA);
                              ("user", user);
                              ("systemProgram", SystemProgram_programId)] |}
  end.

(** [new BN(Math.floor(Date.now() / 1000))]. *)
Definition timestampNow : M Z := λ w, (inr (Date_now w / 1000)%Z, w, []).

(** [if (!info) { await m }]. *)
Definition if_absent {A} (info : option AccountInfo) (m : M A) : M unit :=
  match info with
  | Some _ => mret tt
  | None => _ ← m; mret tt
  end.

Definition createFile (fileName : jsstring) (fileSize : Z) (fileHash : list Z)
    (chunkCount : Z) : M jsstring :=
  '(_, owner) ← connected;
  timestamp ← timestampNow;
  fileRecordPDA ← getFileRecordPDA owner fileName;
  configPDA ← getConfigPDA;
  userProfilePDA ← getUserProfilePDA owner;
  '(configInfo, profileInfo) ←
    promise_all2
      (GetAccountInfo configPDA) (getAccountInfo configPDA)
      (GetAccountInfo userProfilePDA) (getAccountInfo userProfilePDA);
  _ ← if_absent configInfo
        (send owner {| instruction := initialize;
                       accounts := [("config", configPDA);
                                    ("authority", owner);
                                    ("systemProgram", SystemProgram_programId)] |});
  _ ← if_absent profileInfo createUserProfile;
  send owner {| instruction := ix_createFile fileName fileSize fileHash chunkCount timestamp;
                accounts := [("fileRecord", fileRecordPDA);
                             ("config", configPDA);
                             ("userProfile", userProfilePDA);
                             ("owner", owner);
                             ("systemProgram", SystemProgram_programId)] |}.

Definition registerStorage (fileName ipfsCid : jsstring) (merkleRoot : list Z) : M jsstring :=
  '(_, owner) ← connected;
  fileRecordPDA ← getFileRecordPDA owner fileName;
  send owner {| instruction := ix_registerStorage ipfsCid merkleRoot;
                accounts := [("fileRecord", fileRecordPDA); ("owner", owner)] |}.

Definition finalizeFile (fileName : jsstring) : M jsstring :=
  '(_, owner) ← connected;
  fileRecordPDA ← getFileRecordPDA owner fileName;
  send owner {| instruction := ix_finalizeFile;
                accounts := [("fileRecord", fileRecordPDA); ("owner", owner)] |}.

Definition makePublic (fileName : jsstring) : M jsstring :=
  '(_, owner) ← connected;
  fileRecordPDA ← getFileRecordPDA owner fileName;
  send owner {| instruction := ix_makePublic;
                accounts := [("fileRecord", fileRecordPDA); ("owner", owner)] |}.

Definition makePrivate (fileName : jsstring) : M jsstring :=
  '(_, owner) ← connected;
  fileRecordPDA ← getFileRecordPDA owner fileName;
  send owner {| instruction := ix_makePrivate;
                accounts := [("fileRecord", fileRecordPDA); ("owner", owner)] |}.

(** [expiresAt ? new BN(expiresAt) : null]: an absent expiry and the
    number 0 both give [null]. *)
Definition expiresAtBN (expiresAt : option Z) : option Z :=
  match expiresAt with
  | Some t => if (t =? 0)%Z then None else Some t
  | None => None
  end.

Definition grantAccess (fileName sharedWithAddress : jsstring)
    (accessLevel : AccessLevel) (expiresAt : option Z) : M jsstring :=
  '(_, owner) ← connected;
  sharedWith ← lift (newPublicKey sharedWithAddress);
  fileRecordPDA ← getFileRecordPDA owner fileName;
  sharedAccessPDA ← getSharedAccessPDA fileRecordPDA sharedWith;
  send owner {| instruction := ix_grantAccess sharedWith accessLevel (expiresAtBN expiresAt);
                accounts := [("sharedAccess", sharedAccessPDA);
                             ("fileRecord", fileRecordPDA);
                             ("owner", owner);
                             ("systemProgram", SystemProgram_programId)] |}.

Definition revokeAccess (fileName sharedWithAddress : jsstring) : M jsstring :=
  '(_, owner) ← connected;
  sharedWith ← lift (newPublicKey sharedWithAddress);
  fileRecordPDA ← getFileRecordPDA owner fileName;
  sharedAccessPDA ← getSharedAccessPDA fileRecordPDA sharedWith;
  send owner {| instruction := ix_revokeAccess;
                accounts := [("sharedAccess", sharedAccessPDA);
                             ("fileRecord", fileRecordPDA);
                             ("owner", owner)] |}.

Definition getUserFiles : M (list (ProgramAccount FileAccount)) :=
  match program, wallet_publicKey wallet with
  | Some p, Some pk =>
    try_catch
      (if account_fileRecord p
       then request (AllFileRecord {| offset := 8; bytes := toBase58 pk |})
                    (fileRecord_all {| offset := 8; bytes := toBase58 pk |})
       else mret [])
      (λ error,
        _ ← (if message_includes "rate limited" error
             then console (ConsoleWarn "Rate limited, retrying in next fetch cycle")
             else console (ConsoleError "Error fetching files:" error));
        mret [])
  | _, _ => mret []
  end.

Definition getFileSharedAccess (fileName : jsstring)
    : M (list (ProgramAccount SharedAccessAccount)) :=
  match program, wallet_publicKey wallet with
  | Some p, Some pk =>
    try_catch
      (fileRecordPDA ← getFileRecordPDA pk fileName;
       if account_sharedAccess p
       then request (AllSharedAccess {| offset := 8; bytes := toBase58 fileRecordPDA |})
                    (sharedAccess_all {| offset := 8; bytes := toBase58 fileRecordPDA |})
       else mret [])
      (λ error,
        _ ← console (ConsoleError "Error fetching shared access:" error);
        mret [])
  | _, _ => mret []
  end.

(** [programAny.account.fileRecord.fetch(address)]; reading [fetch] of a
    namespace the program does not have throws a type error. *)
Definition fetchFileRecord (p : Program) (address : PublicKey) : M FileAccount :=
  if account_fileRecord p
  then request (FetchFileRecord address) (fileRecord_fetch address)
  else throw (newError "Cannot read properties of undefined (reading 'fetch')").

(** The callback of [active.map]: the grant with its parent record, or with
    [file: null] when the fetch throws. *)
Definition withFile (p : Program) (sa : ProgramAccount SharedAccessAccount)
    : M SharedEntry :=
  try_catch
    (fileAccount ← fetchFileRecord p (fileRecord (account sa));
     mret {| sharedAccess := sa;
             file := Some {| publicKey := fileRecord (account sa);
                             account := fileAccount |} |})
    (λ _, mret {| sharedAccess := sa; file := None |}).

(** The body shared by the two views: scan with one [memcmp] filter, keep the
    accounts whose [isActive] is set, join each with its file record. *)
Definition sharedView (p : Program) (filter : Memcmp) (label : string)
    : M (list SharedEntry) :=
  try_catch
    (if account_sharedAccess p
     then
       accounts ← request (AllSharedAccess filter) (sharedAccess_all filter);
       let active := List.filter (λ a, isActive (account a)) accounts in
       withFiles ← promise_all_map (withFile p) active;
       mret withFiles
     else mret [])
    (λ e,
      _ ← console (ConsoleError label e);
      mret []).

(** A view from the answer of its scan on: the grants whose [isActive] is
    set are joined with their file records; a scan that threw is logged and
    the view is empty. *)
Definition sharedView_rest (p : Program) (label : string)
    (answer : JsError + list (ProgramAccount SharedAccessAccount)) : M (list SharedEntry) :=
  match answer with
  | inr accounts =>
    promise_all_map (withFile p) (List.filter (λ a, isActive (account a)) accounts)
  | inl e =>
    _ ← console (ConsoleError label e);
    mret []
  end.

Definition getFilesSharedWithMe : M (list SharedEntry) :=
  match program, wallet_publicKey wallet with
  | Some p, Some pk =>
    sharedView p {| offset := 72; bytes := toBase58 pk |}
               "Error fetching files shared with me:"
  | _, _ => mret []
  end.

Definition getFilesIShared : M (list SharedEntry) :=
  match program, wallet_publicKey wallet with
  | Some p, Some pk =>
    sharedView p {| offset := 40; bytes := toBase58 pk |}
               "Error fetching files I shared:"
  | _, _ => mret []
  end.

(** [Promise.all([getFilesSharedWithMe(), getFilesIShared()])].  Each of the
    two calls runs up to its first [await] when it is made, so the scan of
    the second view is sent before the scan of the first is answered.  The
    answers come in the order of the requests: the first view goes on with
    its answer and sends the fetches of its file records, then the second
    view does. *)
Definition bothSharedViews : M (list SharedEntry * list SharedEntry) :=
  match program, wallet_publicKey wallet with
  | Some p, Some pk =>
    if account_sharedAccess p then
      let withMe := {| offset := 72; bytes := toBase58 pk |} in
      let iShared := {| offset := 40; bytes := toBase58 pk |} in
      λ w,
        match sharedAccess_all withMe w with
        | (answer1, w1) =>
          match sharedAccess_all iShared w1 with
          | (answer2, w2) =>
            match sharedView_rest p "Error fetching files shared with me:" answer1 w2 with
            | (r1, w3, fx1) =>
              match sharedView_rest p "Error fetching files I shared:" answer2 w3 with
              | (r2, w4, fx2) =>
                (match r1, r2 with
                 | inr a, inr b => inr (a, b)
                 | inl e, _ => inl e
                 | _, inl e => inl e
                 end, w4,
                 [AllSharedAccess withMe; AllSharedAccess iShared] ++ fx1 ++ fx2)
              end
            end
          end
        end
    else mret ([], [])
  | _, _ => mret ([], [])
  end.

(** The transactions among the effects of a call. *)
Fixpoint sentTxs (fx : list Effect) : list Tx :=
  match fx with
  | [] => []
  | Rpc tx :: fx' => tx :: sentTxs fx'
  | _ :: fx' => sentTxs fx'
  end.

(** [Joined p w grants entries w']: starting in world [w], the fetches of
    the parent records of [grants], one after the other, end in [w'] and
    give [entries]: a grant whose fetch throws is entered with [file: null],
    a grant whose fetch answers with the record that was fetched. *)
Inductive Joined (p : Program)
    : World → list (ProgramAccount SharedAccessAccount) → list SharedEntry → World → Prop :=
| Joined_nil w : Joined p w [] [] w
| Joined_null w sa e w1 fx grants entries w2 :
    fetchFileRecord p (fileRecord (account sa)) w = (inl e, w1, fx) →
    Joined p w1 grants entries w2 →
    Joined p w (sa :: grants) ({| sharedAccess := sa; file := None |} :: entries) w2
| Joined_file w sa fa w1 fx grants entries w2 :
    fetchFileRecord p (fileRecord (account sa)) w = (inr fa, w1, fx) →
    Joined p w1 grants entries w2 →
    Joined p w (sa :: grants)
      ({| sharedAccess := sa;
          file := Some {| publicKey := fileRecord (account sa); account := fa |} |}
       :: entries) w2.

(** The account a request passes under [name], if it passes one. *)
Fixpoint accountNamed (name : string) (l : list (string * PublicKey)) : option PublicKey :=
  match l with
  | [] => None
  | (n, a) :: l' => if decide (n = name) then Some a else accountNamed name l'
  end.

(** The instructions that act on a file record: all but the two that create
    the bookkeeping records. *)
Definition onFileRecord (ix : Instruction) : bool :=
  match ix with
  | initialize | ix_createUserProfile => false
  | _ => true
  end.

(** The scans among the effects of a call. *)
Fixpoint grantScans (fx : list Effect) : list Memcmp :=
  match fx with
  | [] => []
  | AllSharedAccess f :: fx' => f :: grantScans fx'
  | _ :: fx' => grantScans fx'
  end.

(** A call that sends one request after the wallet check and derivations:
    it either rejects before the request, the world being as before, or
    sends that one request, whose answer is its outcome. *)
Definition OneRequest (ix : Instruction) (m : M jsstring) : Prop :=
  ∀ w outcome w1 sent, m w = (outcome, w1, sent) →
    (sent = [] ∧ w1 = w ∧ ∃ e, outcome = inl e)
    ∨ (∃ owner tx, wallet_publicKey wallet = Some owner ∧ sent = [Rpc tx]
         ∧ instruction tx = ix ∧ rpc owner tx w = (outcome, w1)).

End Hook.

(** ** What a component does besides updating its state *)

Inductive ToastKind := toast_error | toast_info | toast_success.

(** The [description] of a toast: none, a text, or (the JSX of the success
    toasts) an optional caption with the explorer link of a transaction. *)
Inductive Description :=
| no_description
| text (s : jsstring)
| tx_link (caption : option jsstring) (txSignature : jsstring).

(** The functions of the hook a component calls and awaits. *)
Inductive HookCall :=
| call_makePublic (fileName : jsstring)
| call_makePrivate (fileName : jsstring)
| call_revokeAccess (fileName sharedWith : jsstring)
| call_getUserFiles
| call_getFilesSharedWithMe
| call_getFilesIShared.

(** The callbacks the components hand to [setTimeout]. *)
Inductive Callback :=
(** [() => { fetchFiles(); setProcessingFiles(prev => prev minus key) }],
    the key being an object, given by its reference *)
| cb_fetchFiles_release (key : N)
(** [() => fetchFiles()] *)
| cb_fetchFiles
(** [refresh] of the shared-files view *)
| cb_refresh.

Inductive UiEffect :=
| Toast (kind : ToastKind) (title : string) (description : Description)
        (duration : option N)
| Console_error (label : string) (e : JsError)
| Call (c : HookCall)
| SetTimeout (cb : Callback) (ms : N).

(** [error?.message || fallback]: the fallback also replaces an empty
    message. *)
Definition message_or (error : JsError) (fallback : string) : jsstring :=
  match message error with
  | Some (c :: m) => c :: m
  | _ => lit fallback
  end.

(** The callbacks an effect list hands to [setTimeout], and the hook calls it
    makes. *)
Fixpoint timersOf (fx : list UiEffect) : list Callback :=
  match fx with
  | [] => []
  | SetTimeout cb _ :: fx' => cb :: timersOf fx'
  | _ :: fx' => timersOf fx'
  end.

Fixpoint callsOf (fx : list UiEffect) : list HookCall :=
  match fx with
  | [] => []
  | Call c :: fx' => c :: callsOf fx'
  | _ :: fx' => callsOf fx'
  end.

(** ** What a handler does to the page *)

(** A value caught by a handler that tests it with [instanceof Error]: an
    [Error] with its message, or anything else. *)
Inductive Thrown :=
| thrown_Error (msg : jsstring)
| thrown_other.

(** The value as [console.error] prints it. *)
Definition asJsError (t : Thrown) : JsError :=
  match t with
  | thrown_Error m => {| message := Some m |}
  | thrown_other => {| message := None |}
  end.

(** What [fetch] resolves to: the [ok] flag, and what [response.blob()]
    settles to. *)
Record Response := {
  response_ok : bool;
  response_blob : Thrown + buffer;
}.

(** The effects of the handlers that copy the link of a file or download
    it. *)
Inductive PageEffect :=
| notify (e : UiEffect)
| clipboard_writeText (s : jsstring)
| fetch_url (url : jsstring)
(** an anchor with this content and [download] name is clicked *)
| anchor_click (content : buffer) (download : jsstring).

(** [`https://gateway.lighthouse.storage/ipfs/${cid}`]. *)
Definition gatewayUrl (cid : jsstring) : jsstring :=
  lit "https://gateway.lighthouse.storage/ipfs/" ++ cid.

(** ** The file list and its privacy toggle *)

Module FileList.
Section Component.
Context `{Cluster}.

(** The [publicKey] of a row.  The interface of the component declares it a
    string, but the rows are the entries of [getUserFiles] as they come, and
    there the field holds the [PublicKey] object that the account scan has
    decoded.  The component uses it as the member of a [Set], which holds
    objects by reference: what counts is which object it is ([reference]),
    not the address it holds. *)
Record KeyObject := {
  reference : N;
  held : PublicKey;
}.

(** A row of the list: an entry of [program.account.fileRecord.all()]. *)
Record FileRecord := {
  publicKey : KeyObject;
  account : FileAccount;
}.

(** The state of the confirmation dialog. *)
Record ConfirmDialog := {
  open : bool;
  file : option FileRecord;
  newPrivacy : bool;
}.

(** The [useState] cells of the component. *)
Record State := {
  files : list FileRecord;
  loading : bool;
  processingFiles : gset N;
  confirmDialog : ConfirmDialog;
}.

Definition closedDialog : ConfirmDialog :=
  {| open := false; file := None; newPrivacy := false |}.

Definition setConfirmDialog (d : ConfirmDialog) (st : State) : State :=
  {| files := files st; loading := loading st;
     processingFiles := processingFiles st; confirmDialog := d |}.

Definition setProcessingFiles (f : gset N → gset N) (st : State) : State :=
  {| files := files st; loading := loading st;
     processingFiles := f (processingFiles st); confirmDialog := confirmDialog st |}.

Definition setFiles (l : list FileRecord) (st : State) : State :=
  {| files := l; loading := loading st;
     processingFiles := processingFiles st; confirmDialog := confirmDialog st |}.

Definition setLoading (b : bool) (st : State) : State :=
  {| files := files st; loading := b;
     processingFiles := processingFiles st; confirmDialog := confirmDialog st |}.

(** [fetchFiles] up to its [await]: without a wallet key it empties the list
    and is done ([false]); otherwise it calls [getUserFiles] and waits. *)
Definition fetchFiles_start (walletKey : bool) (st : State) : State * list UiEffect * bool :=
  if walletKey
  then (setLoading true st, [Call call_getUserFiles], true)
  else (setLoading false (setFiles [] st), [], false).

(** [fetchFiles] from the answer of [getUserFiles] on. *)
Definition fetchFiles_settle (answer : JsError + list FileRecord) (st : State)
    : State * list UiEffect :=
  match answer with
  | inr blockchainFiles => (setLoading false (setFiles blockchainFiles st), [])
  | inl error =>
    (setLoading false (setFiles [] st), [Console_error "Error loading files:" error])
  end.

(** The switch of a file was flipped. *)
Definition handlePrivacyToggle (f : FileRecord) (newPrivacy : bool) (st : State)
    : State * list UiEffect :=
  if decide (reference (publicKey f) ∈ processingFiles st)
  then (st, [Toast toast_error "Transaction in progress"
               (text (lit "Please wait for the current transaction to complete"))
               None])
  else (setConfirmDialog {| open := true; file := Some f; newPrivacy := newPrivacy |} st, []).

(** The dialog was dismissed: [onOpenChange(false)]. *)
Definition dismissDialog (st : State) : State := setConfirmDialog closedDialog st.

(** [executePrivacyToggle] up to its [await]: nothing without a file in the
    dialog; otherwise the dialog closes, the file joins the processing set,
    and [makePublic] or [makePrivate] is called.  The third component is the
    call the handler now waits for. *)
Definition executePrivacyToggle_start (st : State)
    : State * list UiEffect * option (FileRecord * bool) :=
  match file (confirmDialog st) with
  | None => (st, [], None)
  | Some f =>
    let newPrivacy := newPrivacy (confirmDialog st) in
    (setProcessingFiles (λ prev, prev ∪ {[reference (publicKey f)]})
       (setConfirmDialog closedDialog st),
     [Toast toast_info "Updating privacy..."
        (text (lit "Processing blockchain transaction")) None;
      Call (if newPrivacy
            then call_makePublic (fileName (account f))
            else call_makePrivate (fileName (account f)))],
     Some (f, newPrivacy))
  end.

(** [executePrivacyToggle] from the outcome of the awaited call on: the rest
    of the [try] block when it resolved, the [catch] block when it
    rejected. *)
Definition executePrivacyToggle_settle (f : FileRecord) (newPrivacy : bool)
    (outcome : JsError + jsstring) (st : State) : State * list UiEffect :=
  match outcome with
  | inr txSignature =>
    (st,
     [Toast toast_success "Success!"
        (tx_link (Some (lit (if newPrivacy then "File is now public"
                             else "File is now private"))) txSignature)
        (Some 5000);
      SetTimeout (cb_fetchFiles_release (reference (publicKey f))) 1500])
  | inl error =>
    (setProcessingFiles (λ prev, prev ∖ {[reference (publicKey f)]}) st,
     Console_error "Privacy toggle error:" error ::
     (if message_includes "AlreadyProcessed" error
      then [Toast toast_error "Transaction Already Processed"
              (text (lit "This transaction was already submitted. Refreshing file list..."))
              (Some 3000);
            SetTimeout cb_fetchFiles 1000]
      else [Toast toast_error "Transaction Failed"
              (text (message_or error "Failed to update privacy setting"))
              (Some 5000)]))
  end.

(** A timer of the component fires.  The third component tells whether the
    [fetchFiles] it started is now waiting for [getUserFiles]. *)
Definition runCallback (walletKey : bool) (cb : Callback) (st : State)
    : State * list UiEffect * bool :=
  match cb with
  | cb_fetchFiles_release key =>
    match fetchFiles_start walletKey st with
    | (st1, fx, waiting) =>
      (setProcessingFiles (λ prev, prev ∖ {[key]}) st1, fx, waiting)
    end
  | cb_fetchFiles => fetchFiles_start walletKey st
  | cb_refresh => (st, [], false)
  end.

(** The timers of a list fire one after the other. *)
Fixpoint drain (walletKey : bool) (cbs : list Callback) (st : State) : State :=
  match cbs with
  | [] => st
  | cb :: cbs' => drain walletKey cbs' (fst (fst (runCallback walletKey cb st)))
  end.

(** *** The component over time

    Between two awaits a handler runs alone; everything else interleaves.  A
    configuration is the state of the component with the calls of
    [executePrivacyToggle] that are waiting for their transaction, the timers
    that have not fired yet, and the hook calls made so far. *)
Record Config := {
  state : State;
  awaiting : list (FileRecord * bool);
  timers : list Callback;
  issued : list HookCall;
}.

Inductive Event :=
(** the switch of a file is flipped *)
| flip (f : FileRecord) (newPrivacy : bool)
(** the dialog is dismissed *)
| dismiss
(** the dialog is confirmed: [executePrivacyToggle] starts *)
| confirm
(** the transaction of the [i]-th waiting call settles *)
| settled (i : nat) (outcome : JsError + jsstring)
(** the [i]-th timer fires *)
| fired (i : nat) (walletKey : bool)
(** the effect hook runs [fetchFiles] *)
| refetch (walletKey : bool)
(** a [getUserFiles] of [fetchFiles] answers *)
| fetched (answer : JsError + list FileRecord).

Definition initial : Config :=
  {| state := {| files := []; loading := true; processingFiles := ∅;
                 confirmDialog := closedDialog |};
     awaiting := []; timers := []; issued := [] |}.

(** The configuration after a handler that left state [st] with effects
    [fx], the waiting calls and old timers being [aw] and [tm]. *)
Definition after (c : Config) (st : State) (fx : list UiEffect)
    (aw : list (FileRecord * bool)) (tm : list Callback) : Config :=
  {| state := st; awaiting := aw; timers := tm ++ timersOf fx;
     issued := issued c ++ callsOf fx |}.

(** One event; [None] when it cannot happen in [c]. *)
Definition step (e : Event) (c : Config) : option Config :=
  match e with
  | flip f b =>
    match handlePrivacyToggle f b (state c) with
    | (st, fx) => Some (after c st fx (awaiting c) (timers c))
    end
  | dismiss => Some (after c (dismissDialog (state c)) [] (awaiting c) (timers c))
  | confirm =>
    match executePrivacyToggle_start (state c) with
    | (st, fx, Some call) => Some (after c st fx (awaiting c ++ [call]) (timers c))
    | (st, fx, None) => Some (after c st fx (awaiting c) (timers c))
    end
  | settled i outcome =>
    match awaiting c !! i with
    | Some (f, b) =>
      match executePrivacyToggle_settle f b outcome (state c) with
      | (st, fx) => Some (after c st fx (delete i (awaiting c)) (timers c))
      end
    | None => None
    end
  | fired i walletKey =>
    match timers c !! i with
    | Some cb =>
      match runCallback walletKey cb (state c) with
      | (st, fx, _) => Some (after c st fx (awaiting c) (delete i (timers c)))
      end
    | None => None
    end
  | refetch walletKey =>
    match fetchFiles_start walletKey (state c) with
    | (st, fx, _) => Some (after c st fx (awaiting c) (timers c))
    end
  | fetched answer =>
    match fetchFiles_settle answer (state c) with
    | (st, fx) => Some (after c st fx (awaiting c) (timers c))
    end
  end.

(** A sequence of events, from the left. *)
Fixpoint run (es : list Event) (c : Config) : option Config :=
  match es with
  | [] => Some c
  | e :: es' =>
    match step e c with
    | Some c' => run es' c'
    | None => None
    end
  end.

(** The key a timer will take out of the processing set, if any. *)
Definition releases (cb : Callback) : list N :=
  match cb with
  | cb_fetchFiles_release key => [key]
  | _ => []
  end.

(** The key objects that have a transaction in flight or a release timer
    running. *)
Definition busy (c : Config) : list N :=
  map (λ call, reference (publicKey (fst call))) (awaiting c)
  ++ List.concat (map releases (timers c)).

(** What holds of every configuration the component can reach: no key
    object is busy twice, the processing set holds exactly the busy key
    objects, and the key object of the row the dialog asks about is not in
    the processing set. *)
Definition Invariant (c : Config) : Prop :=
  NoDup (busy c)
  ∧ (∀ k, k ∈ processingFiles (state c) ↔ k ∈ busy c)
  ∧ (∀ f, file (confirmDialog (state c)) = Some f →
          reference (publicKey f) ∉ processingFiles (state c)).

(** *** A handler run from start to end, with nothing in between *)

Section Run.
Variable program : option Program.
Variable wallet : Wallet.

(** [executePrivacyToggle]: the part before the await, the call of the hook
    against the world, the part after it. *)
Definition executePrivacyToggle (st : State) (w : World)
    : State * list UiEffect * World * list Effect :=
  match executePrivacyToggle_start st with
  | (st1, fx1, None) => (st1, fx1, w, [])
  | (st1, fx1, Some (f, b)) =>
    match (if b then makePublic program wallet (fileName (account f))
           else makePrivate program wallet (fileName (account f))) w with
    | (outcome, w1, sent) =>
      match executePrivacyToggle_settle f b outcome st1 with
      | (st2, fx2) => (st2, fx1 ++ fx2, w1, sent)
      end
    end
  end.

End Run.

(** *** Links and downloads *)

Definition handleShare (f : FileRecord) : list PageEffect :=
  match primaryStorage (account f) with
  | [] =>
    [notify (Toast toast_error "Cannot share"
               (text (lit "File storage location not found")) None)]
  | cid =>
    [clipboard_writeText (gatewayUrl cid);
     notify (Toast toast_success "Link copied!"
               (text (lit "Share link has been copied to clipboard")) None)]
  end.

(** [handleDownload], given what the [fetch] of the gateway settles to. *)
Definition handleDownload (f : FileRecord) (answer : Thrown + Response)
    : list PageEffect :=
  match primaryStorage (account f) with
  | [] =>
    [notify (Toast toast_error "File not available"
               (text (lit "Storage location not found")) None)]
  | cid =>
    let failed (error : Thrown) :=
      [notify (Console_error "Download error:" (asJsError error));
       notify (Toast toast_error "Download failed"
                 (text (match error with
                        | thrown_Error m => m
                        | thrown_other => lit "Unknown error"
                        end)) None)] in
    [notify (Toast toast_info "Downloading file..."
               (text (lit "Please wait while we fetch your file")) None);
     fetch_url (gatewayUrl cid)]
    ++ match answer with
       | inl error => failed error
       | inr response =>
         if response_ok response then
           match response_blob response with
           | inl error => failed error
           | inr content =>
             [anchor_click content (fileName (account f));
              notify (Toast toast_success "Download complete!"
                        (text (fileName (account f) ++ lit " has been downloaded"))
                        None)]
           end
         else failed (thrown_Error (lit "Failed to fetch file"))
       end
  end.

(** *** [fetchFiles] run from start to end *)

Section Fetch.
Variable program : option Program.
Variable wallet : Wallet.

(** The entries of one account scan as objects.  Every scan decodes the
    accounts anew, so the key objects of its entries are new ones: they get
    the references from [fresh] on, [fresh] being the first reference not
    yet in use. *)
Fixpoint decode (fresh : N) (l : list (ProgramAccount FileAccount)) : list FileRecord :=
  match l with
  | [] => []
  | Build_ProgramAccount _ key fileAccount :: l' =>
    {| publicKey := {| reference := fresh; held := key |}; account := fileAccount |}
    :: decode (fresh + 1) l'
  end.

(** The component stores the list of [getUserFiles] as it comes. *)
Definition fetchFiles (fresh : N) (st : State) (w : World)
    : State * list UiEffect * World * list Effect :=
  match fetchFiles_start (match wallet_publicKey wallet with
                          | Some _ => true
                          | None => false
                          end) st with
  | (st1, fx1, false) => (st1, fx1, w, [])
  | (st1, fx1, true) =>
    match getUserFiles program wallet w with
    | (answer, w1, sent) =>
      match fetchFiles_settle (match answer with
                               | inl e => inl e
                               | inr l => inr (decode fresh l)
                               end) st1 with
      | (st2, fx2) => (st2, fx1 ++ fx2, w1, sent)
      end
    end
  end.

End Fetch.

End Component.
End FileList.

(** ** The shared-files view and its revoke handler *)

Module SharedFiles.
Section Component.
Context `{Cluster}.

(** The [useState] cells of the component. *)
Record State := {
  loading : bool;
  withMe : list SharedEntry;
  iShared : list SharedEntry;
  revokingKeys : gset jsstring;
}.

Definition setRevokingKeys (f : gset jsstring → gset jsstring) (st : State) : State :=
  {| loading := loading st; withMe := withMe st; iShared := iShared st;
     revokingKeys := f (revokingKeys st) |}.

Definition setLoading (b : bool) (st : State) : State :=
  {| loading := b; withMe := withMe st; iShared := iShared st;
     revokingKeys := revokingKeys st |}.

Definition setLists (a b : list SharedEntry) (st : State) : State :=
  {| loading := loading st; withMe := a; iShared := b;
     revokingKeys := revokingKeys st |}.

(** [refresh] up to its [await]: nothing without a wallet key; otherwise both
    views are requested. *)
Definition refresh_start (walletKey : bool) (st : State) : State * list UiEffect * bool :=
  if walletKey
  then (setLoading true st,
        [Call call_getFilesSharedWithMe; Call call_getFilesIShared], true)
  else (st, [], false).

(** [refresh] from the answers on. *)
Definition refresh_settle (answer : JsError + list SharedEntry * list SharedEntry)
    (st : State) : State * list UiEffect :=
  match answer with
  | inr (a, b) => (setLoading false (setLists a b st), [])
  | inl e => (setLoading false st, [Console_error "Error loading shared files:" e])
  end.

(** [sharedWith.toBase58?.() || sharedWith] for the decoded key of a grant:
    its base-58 text (the text of the key itself, should that be empty). *)
Definition sharedWithText (k : PublicKey) : jsstring := toBase58 k.

(** [`${fileName}-${sharedWith}`]. *)
Definition revokeKey (fileName sharedWith : jsstring) : jsstring :=
  fileName ++ lit "-" ++ sharedWith.

(** [handleRevoke] up to its [await].  The third component is the key the
    handler holds while it waits for [revokeAccess], if it got that far. *)
Definition handleRevoke_start (entry : SharedEntry) (st : State)
    : State * list UiEffect * option jsstring :=
  match file entry with
  | None =>
    (st, [Toast toast_error "Cannot revoke" (text (lit "Missing file metadata")) None],
     None)
  | Some f =>
    let fileName := fileName (account f) in
    let sharedWith := sharedWithText (sharedWith (account (sharedAccess entry))) in
    let key := revokeKey fileName sharedWith in
    if decide (key ∈ revokingKeys st)
    then (st, [], None)
    else
      (setRevokingKeys (λ prev, prev ∪ {[key]}) st,
       [Toast toast_info "Revoking access..." no_description None;
        Call (call_revokeAccess fileName sharedWith)],
       Some key)
  end.

(** [handleRevoke] from the outcome of [revokeAccess] on: the rest of the
    [try] block or the [catch] block, then the [finally] block. *)
Definition handleRevoke_settle (key : jsstring) (outcome : JsError + jsstring)
    (st : State) : State * list UiEffect :=
  (setRevokingKeys (λ prev, prev ∖ {[key]}) st,
   match outcome with
   | inr sig =>
     [Toast toast_success "Access revoked" (tx_link None sig) None;
      SetTimeout cb_refresh 1200]
   | inl e =>
     [Console_error "Revoke error:" e;
      Toast toast_error "Failed to revoke" (text (message_or e "Unknown error")) None]
   end).

(** A timer of the component fires: the only callback it sets is
    [refresh]. *)
Definition runCallback (walletKey : bool) (cb : Callback) (st : State)
    : State * list UiEffect * bool :=
  match cb with
  | cb_refresh => refresh_start walletKey st
  | _ => (st, [], false)
  end.

(** *** The component over time *)

Record Config := {
  state : State;
  awaiting : list jsstring;
  timers : list Callback;
  issued : list HookCall;
}.

Inductive Event :=
(** the revoke button of an entry is pressed *)
| press (entry : SharedEntry)
(** the [revokeAccess] of the [i]-th waiting handler settles *)
| settled (i : nat) (outcome : JsError + jsstring)
(** the [i]-th timer fires, or the effect hook runs [refresh] *)
| fired (i : nat) (walletKey : bool)
| rerun (walletKey : bool)
(** the two views of a [refresh] answer *)
| answered (answer : JsError + list SharedEntry * list SharedEntry).

Definition initial : Config :=
  {| state := {| loading := true; withMe := []; iShared := []; revokingKeys := ∅ |};
     awaiting := []; timers := []; issued := [] |}.

Definition after (c : Config) (st : State) (fx : list UiEffect)
    (aw : list jsstring) (tm : list Callback) : Config :=
  {| state := st; awaiting := aw; timers := tm ++ timersOf fx;
     issued := issued c ++ callsOf fx |}.

(** One event; [None] when it cannot happen in [c]. *)
Definition step (e : Event) (c : Config) : option Config :=
  match e with
  | press entry =>
    match handleRevoke_start entry (state c) with
    | (st, fx, Some key) => Some (after c st fx (awaiting c ++ [key]) (timers c))
    | (st, fx, None) => Some (after c st fx (awaiting c) (timers c))
    end
  | settled i outcome =>
    match awaiting c !! i with
    | Some key =>
      match handleRevoke_settle key outcome (state c) with
      | (st, fx) => Some (after c st fx (delete i (awaiting c)) (timers c))
      end
    | None => None
    end
  | fired i walletKey =>
    match timers c !! i with
    | Some cb =>
      match runCallback walletKey cb (state c) with
      | (st, fx, _) => Some (after c st fx (awaiting c) (delete i (timers c)))
      end
    | None => None
    end
  | rerun walletKey =>
    match refresh_start walletKey (state c) with
    | (st, fx, _) => Some (after c st fx (awaiting c) (timers c))
    end
  | answered answer =>
    match refresh_settle answer (state c) with
    | (st, fx) => Some (after c st fx (awaiting c) (timers c))
    end
  end.

Fixpoint run (es : list Event) (c : Config) : option Config :=
  match es with
  | [] => Some c
  | e :: es' =>
    match step e c with
    | Some c' => run es' c'
    | None => None
    end
  end.

(** What holds of every configuration the view can reach: no key is awaited
    twice, and the set of keys being revoked holds exactly the keys whose
    [revokeAccess] has not settled. *)
Definition Invariant (c : Config) : Prop :=
  NoDup (awaiting c) ∧ (∀ k, k ∈ revokingKeys (state c) ↔ k ∈ awaiting c).

(** *** The handler run from start to end, with nothing in between *)

Variable program : option Program.
Variable wallet : Wallet.

Definition handleRevoke (entry : SharedEntry) (st : State) (w : World)
    : State * list UiEffect * World * list Effect :=
  match handleRevoke_start entry st with
  | (st1, fx1, None) => (st1, fx1, w, [])
  | (st1, fx1, Some key) =>
    match file entry with
    | None => (st1, fx1, w, [])
    | Some f =>
      match revokeAccess program wallet (fileName (account f))
              (sharedWithText (sharedWith (account (sharedAccess entry)))) w with
      | (outcome, w1, sent) =>
        match handleRevoke_settle key outcome st1 with
        | (st2, fx2) => (st2, fx1 ++ fx2, w1, sent)
        end
      end
    end
  end.

(** [refresh] run from start to end. *)
Definition refresh (st : State) (w : World)
    : State * list UiEffect * World * list Effect :=
  match refresh_start (match wallet_publicKey wallet with
                       | Some _ => true
                       | None => false
                       end) st with
  | (st1, fx1, false) => (st1, fx1, w, [])
  | (st1, fx1, true) =>
    match bothSharedViews program wallet w with
    | (answer, w1, sent) =>
      match refresh_settle answer st1 with
      | (st2, fx2) => (st2, fx1 ++ fx2, w1, sent)
      end
    end
  end.

(** *** What is drawn *)

(** [sharedWith.toBase58?.() || ''], the text of the key in the key of the
    button. *)
Definition renderedKeyText (k : PublicKey) : jsstring :=
  match toBase58 k with
  | [] => []
  | c :: t => c :: t
  end.

(** The revoke button [renderItem] draws for an entry: none, or the button
    with its [disabled] flag. *)
Definition revokeButton (canRevoke : bool) (entry : SharedEntry) (st : State)
    : option bool :=
  if canRevoke then
    match file entry with
    | Some f =>
      Some (bool_decide
              (revokeKey (fileName (account f))
                 (renderedKeyText (sharedWith (account (sharedAccess entry))))
               ∈ revokingKeys st))
    | None => None
    end
  else None.

(** The entries on the page with their buttons.  Without a wallet key, and
    while the view is loading, a card is shown in place of the lists;
    otherwise the list shared with the user is drawn without revoke buttons,
    the list the user shared with them. *)
Definition drawn (walletKey : bool) (st : State) : list (SharedEntry * option bool) :=
  if walletKey then
    if loading st then []
    else map (λ e, (e, revokeButton false e st)) (withMe st)
         ++ map (λ e, (e, revokeButton true e st)) (iShared st)
  else [].

End Component.
End SharedFiles.

(** ** A symbolic web3 *)

(** Keys as terms: the key of a wallet, given by its text, or the address
    derived for a program from the concatenation of the seeds, which is what
    the library hashes.  Two seed lists with the same concatenation have the
    same address; derivation being a constructor, no other two have. *)
Module Symbolic.

Inductive Key :=
| wallet_key (text : jsstring)
| derived (preimage : buffer) (programId : Key).

#[global] Instance Key_eq_dec : EqDecision Key.
Proof. solve_decision. Defined.

Fixpoint keyText (k : Key) : jsstring :=
  match k with
  | wallet_key t => t
  | derived preimage p => lit "pda:" ++ preimage ++ lit "@" ++ keyText p
  end.

Definition web3 : Web3 := {|
  PublicKey := Key;
  toBase58 := keyText;
  toBuffer := keyText;
  newPublicKey := λ s,
    match s with
    | [] => inl (newError "Invalid public key input")
    | _ :: _ => inr (wallet_key s)
    end;
  findProgramAddressSync := λ seeds programId,
    inr (derived (List.concat seeds) programId, 255);
  PROGRAM_ID := wallet_key (lit "SoLDriVe");
  SystemProgram_programId := wallet_key (lit "11111111111111111111111111111111");
|}.

End Symbolic.

(** ** The ledger program, from the specification *)

Module SpecLedger.
Section Ledger.
Context `{Web3}.

(** Modelled from the spec: the state of the external ledger program, which
    is not in the sources.  File records and access grants by address
    (section 3 of the specification), the addresses of the profile and
    configuration records, the clock, and the number of confirmed
    transactions. *)
Record Ledger := {
  clock : Z;
  bookkeeping : list PublicKey;
  fileRecords : list (PublicKey * FileAccount);
  grants : list (PublicKey * SharedAccessAccount);
  confirmed : N;
}.

Fixpoint find {A} (a : PublicKey) (l : list (PublicKey * A)) : option A :=
  match l with
  | [] => None
  | (b, v) :: l' => if decide (a = b) then Some v else find a l'
  end.

(** Replace the record at [a], or add it at the end. *)
Fixpoint put {A} (a : PublicKey) (v : A) (l : list (PublicKey * A)) : list (PublicKey * A) :=
  match l with
  | [] => [(a, v)]
  | (b, u) :: l' => if decide (a = b) then (a, v) :: l' else (b, u) :: put a v l'
  end.

(** The account a request passes under [name]. *)
Fixpoint named (name : string) (l : list (string * PublicKey)) : JsError + PublicKey :=
  match l with
  | [] => inl (newError "AccountNotProvided")
  | (n, a) :: l' => if decide (n = name) then inr a else named name l'
  end.

Definition setFiles (fs : list (PublicKey * FileAccount)) (l : Ledger) : Ledger :=
  {| clock := clock l; bookkeeping := bookkeeping l; fileRecords := fs;
     grants := grants l; confirmed := confirmed l |}.

Definition setGrants (gs : list (PublicKey * SharedAccessAccount)) (l : Ledger) : Ledger :=
  {| clock := clock l; bookkeeping := bookkeeping l; fileRecords := fileRecords l;
     grants := gs; confirmed := confirmed l |}.

Definition addBookkeeping (a : PublicKey) (l : Ledger) : Ledger :=
  {| clock := clock l; bookkeeping := a :: bookkeeping l; fileRecords := fileRecords l;
     grants := grants l; confirmed := confirmed l |}.

(** Modelled from the spec: the file record of a request, which must exist
    and belong to the caller ("FileRecord owned by caller", "fails if record
    missing or not owned"). *)
Definition ownedFile (signer : PublicKey) (tx : Tx) (l : Ledger)
    : JsError + PublicKey * FileAccount :=
  match named "fileRecord" (accounts tx) with
  | inl e => inl e
  | inr a =>
    match find a (fileRecords l) with
    | None => inl (newError "AccountNotInitialized")
    | Some f =>
      if decide (fa_owner f = signer) then inr (a, f)
      else inl (newError "ConstraintHasOne")
    end
  end.

Definition withPublic (b : bool) (f : FileAccount) : FileAccount :=
  {| fa_owner := fa_owner f; fileName := fileName f; fileSize := fileSize f;
     primaryStorage := primaryStorage f; status := status f; isPublic := b;
     createdAt := createdAt f |}.

Definition withStorage (cid : jsstring) (st : FileStatus) (f : FileAccount) : FileAccount :=
  {| fa_owner := fa_owner f; fileName := fileName f; fileSize := fileSize f;
     primaryStorage := cid; status := st; isPublic := isPublic f;
     createdAt := createdAt f |}.

Definition withActive (b : bool) (g : SharedAccessAccount) : SharedAccessAccount :=
  {| fileRecord := fileRecord g; sa_owner := sa_owner g; sharedWith := sharedWith g;
     accessLevel := accessLevel g; expiresAt := expiresAt g; isActive := b |}.

(** Modelled from the spec: the effect of each instruction, after the table
    of operations in section 4.1.  [makePublic] and [makePrivate] set the
    visibility flag of a record the signer owns; [revokeAccess] clears the
    active flag of a grant that exists; [grantAccess] creates or updates a
    grant as active. *)
Definition execute (signer : PublicKey) (tx : Tx) (l : Ledger) : JsError + Ledger :=
  match instruction tx with
  | initialize =>
    match named "config" (accounts tx) with
    | inl e => inl e
    | inr a => inr (addBookkeeping a l)
    end
  | ix_createUserProfile =>
    match named "userProfile" (accounts tx) with
    | inl e => inl e
    | inr a => inr (addBookkeeping a l)
    end
  | ix_createFile name size _ _ timestamp =>
    match named "fileRecord" (accounts tx) with
    | inl e => inl e
    | inr a =>
      match find a (fileRecords l) with
      | Some _ => inl (newError "already in use")
      | None =>
        if (size <=? 0)%Z then inl (newError "InvalidFileSize") else
        inr (setFiles (put a {| fa_owner := signer; fileName := name; fileSize := size;
                                primaryStorage := []; status := uploading;
                                isPublic := false; createdAt := timestamp |}
                           (fileRecords l)) l)
      end
    end
  | ix_registerStorage cid _ =>
    match ownedFile signer tx l with
    | inl e => inl e
    | inr (a, f) => inr (setFiles (put a (withStorage cid processing f) (fileRecords l)) l)
    end
  | ix_finalizeFile =>
    match ownedFile signer tx l with
    | inl e => inl e
    | inr (a, f) =>
      match status f with
      | processing =>
        inr (setFiles (put a (withStorage (primaryStorage f) active f) (fileRecords l)) l)
      | _ => inl (newError "InvalidFileStatus")
      end
    end
  | ix_makePublic =>
    match ownedFile signer tx l with
    | inl e => inl e
    | inr (a, f) => inr (setFiles (put a (withPublic true f) (fileRecords l)) l)
    end
  | ix_makePrivate =>
    match ownedFile signer tx l with
    | inl e => inl e
    | inr (a, f) => inr (setFiles (put a (withPublic false f) (fileRecords l)) l)
    end
  | ix_grantAccess grantee level expiry =>
    match ownedFile signer tx l, named "sharedAccess" (accounts tx) with
    | inl e, _ => inl e
    | _, inl e => inl e
    | inr (a, _), inr g =>
      inr (setGrants (put g {| fileRecord := a; sa_owner := signer; sharedWith := grantee;
                               accessLevel := level; expiresAt := expiry;
                               isActive := true |}
                          (grants l)) l)
    end
  | ix_revokeAccess =>
    match named "sharedAccess" (accounts tx) with
    | inl e => inl e
    | inr g =>
      match find g (grants l) with
      | None => inl (newError "AccountNotInitialized")
      | Some grant => inr (setGrants (put g (withActive false grant) (grants l)) l)
      end
    end
  end.

(** A confirmed transaction is counted; its signature is the count. *)
Definition confirm (l : Ledger) : jsstring * Ledger :=
  (lit "signature-" ++ [confirmed l],
   {| clock := clock l; bookkeeping := bookkeeping l; fileRecords := fileRecords l;
      grants := grants l; confirmed := confirmed l + 1 |}).

(** An account scan with one [memcmp] filter: the accounts whose key field at
    that offset has the given base-58 text.  The offsets are those of the
    source: 8 for the first key field, 40 and 72 for the next two. *)
Definition scanFiles (f : Memcmp) (l : Ledger) : list (ProgramAccount FileAccount) :=
  map (λ kv, {| publicKey := fst kv; account := snd kv |})
      (List.filter (λ kv, (offset f =? 8) && bool_decide (toBase58 (fa_owner (snd kv)) = bytes f))
                   (fileRecords l)).

Definition grantField (off : N) (g : SharedAccessAccount) : option PublicKey :=
  if off =? 8 then Some (fileRecord g)
  else if off =? 40 then Some (sa_owner g)
  else if off =? 72 then Some (sharedWith g)
  else None.

Definition scanGrants (f : Memcmp) (l : Ledger) : list (ProgramAccount SharedAccessAccount) :=
  map (λ kv, {| publicKey := fst kv; account := snd kv |})
      (List.filter (λ kv, match grantField (offset f) (snd kv) with
                          | Some k => bool_decide (toBase58 k = bytes f)
                          | None => false
                          end)
                   (grants l)).

(** Modelled from the spec: an RPC node that always answers, in front of the
    ledger above. *)
Definition cluster : Cluster := {|
  World := Ledger;
  getAccountInfo := λ a l,
    (inr (if bool_decide (a ∈ bookkeeping l) || bool_decide (is_Some (find a (fileRecords l)))
             || bool_decide (is_Some (find a (grants l)))
          then Some {| lamports := 1; data := [] |} else None), l);
  rpc := λ signer tx l,
    match execute signer tx l with
    | inl e => (inl e, l)
    | inr l' => match confirm l' with (sig, l'') => (inr sig, l'') end
    end;
  fileRecord_all := λ f l, (inr (scanFiles f l), l);
  sharedAccess_all := λ f l, (inr (scanGrants f l), l);
  fileRecord_fetch := λ a l,
    (match find a (fileRecords l) with
     | Some f => inr f
     | None => inl (newError "Account does not exist or has no data")
     end, l);
  Date_now := clock;
|}.

Definition empty : Ledger :=
  {| clock := 0; bookkeeping := []; fileRecords := []; grants := []; confirmed := 0 |}.

End Ledger.
End SpecLedger.

(** ** Two users and a few ledgers to run the client on *)

Module Scenario.
Import Symbolic.

#[local] Existing Instance web3.
#[local] Existing Instance SpecLedger.cluster.

Definition alice : Key := wallet_key (lit "Alice").
Definition bob : Key := wallet_key (lit "Bob").

Definition idl : Program := {| account_fileRecord := true; account_sharedAccess := true |}.

Definition aliceWallet : Wallet := {| wallet_publicKey := Some alice |}.
Definition bobWallet : Wallet := {| wallet_publicKey := Some bob |}.
Definition noWallet : Wallet := {| wallet_publicKey := None |}.

Definition reportAddress : Key :=
  derived (Buffer_from (lit "file") ++ keyText alice ++ Buffer_from (lit "report.pdf"))
          (wallet_key (lit "SoLDriVe")).

Definition report : FileAccount :=
  {| fa_owner := alice; fileName := lit "report.pdf"; fileSize := 2048;
     primaryStorage := lit "bafy"; status := active; isPublic := false;
     createdAt := 1700000000 |}.

(** Bob may read the report until second 100; a second grant of Alice to
    Bob points to a file record that does not exist. *)
Definition reportGrant : SharedAccessAccount :=
  {| fileRecord := reportAddress; sa_owner := alice; sharedWith := bob;
     accessLevel := read; expiresAt := Some 100%Z; isActive := true |}.

Definition orphanGrant : SharedAccessAccount :=
  {| fileRecord := wallet_key (lit "gone"); sa_owner := alice; sharedWith := bob;
     accessLevel := write; expiresAt := None; isActive := true |}.

(** A ledger whose clock shows second 200. *)
Definition ledger : SpecLedger.Ledger :=
  {| SpecLedger.clock := 200000;
     SpecLedger.bookkeeping := [];
     SpecLedger.fileRecords := [(reportAddress, report)];
     SpecLedger.grants := [(wallet_key (lit "grant-1"), reportGrant);
                           (wallet_key (lit "grant-2"), orphanGrant)];
     SpecLedger.confirmed := 0 |}.

(** The same ledger once Bob has a profile record. *)
Definition bobProfile : Key :=
  derived (Buffer_from (lit "user_profile") ++ keyText bob) (wallet_key (lit "SoLDriVe")).

Definition aliceProfile : Key :=
  derived (Buffer_from (lit "user_profile") ++ keyText alice)
          (wallet_key (lit "SoLDriVe")).

Definition configAddress : Key :=
  derived (Buffer_from (lit "config")) (wallet_key (lit "SoLDriVe")).

Definition ledgerWithProfile : SpecLedger.Ledger :=
  SpecLedger.addBookkeeping bobProfile ledger.

(** A node that rejects every transaction as one it has seen before. *)
Definition replayNode : Cluster := {|
  World := SpecLedger.Ledger;
  getAccountInfo := getAccountInfo (Cluster := SpecLedger.cluster);
  rpc := λ _ _ l,
    (inl (newError "Transaction simulation failed: AlreadyProcessed"), l);
  fileRecord_all := fileRecord_all (Cluster := SpecLedger.cluster);
  sharedAccess_all := sharedAccess_all (Cluster := SpecLedger.cluster);
  fileRecord_fetch := fileRecord_fetch (Cluster := SpecLedger.cluster);
  Date_now := SpecLedger.clock;
|}.

(** The report in Alice's file list, and the list with its dialog open to
    make the report public. *)
Definition reportRow : FileList.FileRecord :=
  {| FileList.publicKey := {| FileList.reference := 0; FileList.held := reportAddress |};
     FileList.account := report |}.

(** The row of the report when the list has been fetched again: the same
    address and account under a new key object. *)
Definition reportRowAgain : FileList.FileRecord :=
  {| FileList.publicKey := {| FileList.reference := 1; FileList.held := reportAddress |};
     FileList.account := report |}.

Definition listConfirming : FileList.State :=
  {| FileList.files := [reportRow]; FileList.loading := false;
     FileList.processingFiles := ∅;
     FileList.confirmDialog :=
       {| FileList.open := true; FileList.file := Some reportRow;
          FileList.newPrivacy := true |} |}.

(** The list while a transaction on the report is in flight. *)
Definition listProcessing : FileList.State :=
  {| FileList.files := [reportRow]; FileList.loading := false;
     FileList.processingFiles := {[ 0 ]};
     FileList.confirmDialog := FileList.closedDialog |}.

(** Alice's shared view: her grant on the report, and the grant whose file
    record could not be fetched. *)
Definition reportFile : ProgramAccount FileAccount :=
  {| publicKey := reportAddress; account := report |}.

Definition reportEntry : SharedEntry :=
  {| sharedAccess := {| publicKey := wallet_key (lit "grant-1"); account := reportGrant |};
     file := Some reportFile |}.

Definition orphanEntry : SharedEntry :=
  {| sharedAccess := {| publicKey := wallet_key (lit "grant-2"); account := orphanGrant |};
     file := None |}.

Definition viewIdle : SharedFiles.State :=
  {| SharedFiles.loading := false; SharedFiles.withMe := [];
     SharedFiles.iShared := [reportEntry; orphanEntry];
     SharedFiles.revokingKeys := ∅ |}.

(** The view while the revocation of Bob's grant on the report is in
    flight. *)
Definition viewRevoking : SharedFiles.State :=
  {| SharedFiles.loading := false; SharedFiles.withMe := [];
     SharedFiles.iShared := [reportEntry; orphanEntry];
     SharedFiles.revokingKeys := {[ lit "report.pdf-Bob" ]} |}.

End Scenario.

(** * Properties *)

(** ** Calls of the hook *)

Section HookFacts.
Context `{Cluster}.
Implicit Types (program : option Program) (wallet : Wallet) (w : World).

Lemma bind_throw {A B} (e : JsError) (k : A → M B) w :
  (throw e ≫= k) w = (inl e, w, []).
Proof. reflexivity. Qed.

Lemma bind_ret {A B} (a : A) (k : A → M B) w : (mret a ≫= k) w = k a w.
Proof.
  unfold mbind, M_bind, bind, mret, M_ret, ret.
  destruct (k a w) as [[r w'] fx]. reflexivity.
Qed.

Lemma connected_not program wallet :
  program = None ∨ wallet_publicKey wallet = None →
  connected program wallet = throw (newError "Wallet not connected").
Proof.
  intros [-> | Hw]; unfold connected; [reflexivity |].
  rewrite Hw. destruct program; reflexivity.
Qed.

Lemma connected_yes program wallet p pk :
  program = Some p → wallet_publicKey wallet = Some pk →
  connected program wallet = mret (p, pk).
Proof. intros -> Hw. unfold connected. rewrite Hw. reflexivity. Qed.

(** C7.  Without a connected wallet (no program, or no key in the wallet)
    each of the eight mutating calls rejects with the error "Wallet not
    connected", leaves the world as it was and has sent nothing to the node:
    no transaction, and no read either. *)
Theorem mutations_need_wallet program wallet w :
  program = None ∨ wallet_publicKey wallet = None →
  let refused := (inl (newError "Wallet not connected"), w, []) in
  createUserProfile program wallet w = refused
  ∧ (∀ fileName fileSize fileHash chunkCount,
       createFile program wallet fileName fileSize fileHash chunkCount w = refused)
  ∧ (∀ fileName ipfsCid merkleRoot,
       registerStorage program wallet fileName ipfsCid merkleRoot w = refused)
  ∧ (∀ fileName, finalizeFile program wallet fileName w = refused)
  ∧ (∀ fileName, makePublic program wallet fileName w = refused)
  ∧ (∀ fileName, makePrivate program wallet fileName w = refused)
  ∧ (∀ fileName sharedWithAddress accessLevel expiresAt,
       grantAccess program wallet fileName sharedWithAddress accessLevel expiresAt w
       = refused)
  ∧ (∀ fileName sharedWithAddress,
       revokeAccess program wallet fileName sharedWithAddress w = refused).
Proof.
  intros Hnc refused. pose proof (connected_not _ _ Hnc) as Hc.
  unfold createUserProfile, createFile, registerStorage, finalizeFile,
    makePublic, makePrivate, grantAccess, revokeAccess.
  rewrite Hc. repeat split; intros; apply bind_throw.
Qed.

End HookFacts.

Section CreateProfile.
Context `{Cluster}.

(** C9.  [createUserProfile] looks the profile address up first.  When the
    node answers with an account, the call resolves to the text
    "already-initialized" and its only effect is that read: no transaction.
    Whenever the call does send a transaction, the node had answered that
    the address holds no account, and the transaction sent is the single
    [createUserProfile] request for that address. *)
Theorem createUserProfile_idempotent program wallet w :
  (∀ p user pda bump info w1,
     program = Some p → wallet_publicKey wallet = Some user →
     findProgramAddressSync [Buffer_from (lit "user_profile"); toBuffer user] PROGRAM_ID
       = inr (pda, bump) →
     getAccountInfo pda w = (inr (Some info), w1) →
     createUserProfile program wallet w
       = (inr (lit "already-initialized"), w1, [GetAccountInfo pda]))
  ∧ (∀ r w' fx,
       createUserProfile program wallet w = (r, w', fx) → sentTxs fx ≠ [] →
       ∃ user pda bump w1,
         wallet_publicKey wallet = Some user
         ∧ findProgramAddressSync [Buffer_from (lit "user_profile"); toBuffer user]
             PROGRAM_ID = inr (pda, bump)
         ∧ getAccountInfo pda w = (inr None, w1)
         ∧ sentTxs fx =
             [{| instruction := ix_createUserProfile;
                 accounts := [("userProfile", pda); ("user", user);
                              ("systemProgram", SystemProgram_programId)] |}]).
Proof.
  split.
  - intros p user pda bump info w1 Hp Hu Hpda Hinfo.
    unfold createUserProfile. rewrite (connected_yes _ _ _ _ Hp Hu), bind_ret.
    unfold getUserProfilePDA, pda_of. rewrite Hpda.
    unfold mbind, M_bind, bind, lift, request. rewrite Hinfo. reflexivity.
  - intros r w' fx Hrun Hsent.
    unfold createUserProfile, connected in Hrun.
    destruct program as [p|]; [| inversion Hrun; subst; done].
    destruct (wallet_publicKey wallet) as [user|] eqn:Hu; [| inversion Hrun; subst; done].
    rewrite bind_ret in Hrun. unfold getUserProfilePDA, pda_of in Hrun.
    destruct (findProgramAddressSync _ PROGRAM_ID) as [e | [pda bump]] eqn:Hpda;
      [inversion Hrun; subst; done |].
    unfold mbind, M_bind, bind, lift, request, send, request in Hrun.
    destruct (getAccountInfo pda w) as [[e | [info |]] w1] eqn:Hinfo;
      [inversion Hrun; subst; done | inversion Hrun; subst; done |].
    destruct (rpc user _ w1) as [r2 w2] eqn:Hrpc.
    inversion Hrun; subst. exists user, pda, bump, w1. done.
Qed.

End CreateProfile.

(** ** The two shared views *)

Section SharedViews.
Context `{Cluster}.

(** The callback of the map never rejects. *)
Lemma withFile_outcome p sa w :
  match fetchFileRecord p (fileRecord (account sa)) w with
  | (inl _, w1, fx) =>
    withFile p sa w = (inr {| sharedAccess := sa; file := None |}, w1, fx ++ [])
  | (inr fa, w1, fx) =>
    withFile p sa w
    = (inr {| sharedAccess := sa;
              file := Some {| publicKey := fileRecord (account sa); account := fa |} |},
       w1, fx ++ [])
  end.
Proof.
  unfold withFile, try_catch, mbind, M_bind, bind, mret, M_ret, ret.
  destruct (fetchFileRecord p (fileRecord (account sa)) w) as [[[e | fa] w1] fx];
    reflexivity.
Qed.

Lemma fetchFileRecord_reads p a w r w1 fx :
  fetchFileRecord p a w = (r, w1, fx) → sentTxs fx = [].
Proof.
  unfold fetchFileRecord, request, throw.
  destruct (account_fileRecord p).
  - destruct (fileRecord_fetch a w). intros [= <- <- <-]. reflexivity.
  - intros [= <- <- <-]. reflexivity.
Qed.

Lemma sentTxs_app fx1 fx2 : sentTxs (fx1 ++ fx2) = sentTxs fx1 ++ sentTxs fx2.
Proof.
  induction fx1 as [| [] fx1 IH]; simpl; [reflexivity | rewrite ?IH; reflexivity ..].
Qed.

(** The joined list: one entry per grant, in order, whatever the fetches
    answer. *)
Lemma promise_all_map_withFile p grants : ∀ w,
  ∃ entries w' fx,
    promise_all_map (withFile p) grants w = (inr entries, w', fx)
    ∧ Joined p w grants entries w'
    ∧ sentTxs fx = [].
Proof.
  induction grants as [| sa grants IH]; intros w.
  - exists [], w, []. repeat split. constructor.
  - simpl. pose proof (withFile_outcome p sa w) as Hsa.
    destruct (fetchFileRecord p (fileRecord (account sa)) w) as [[r w1] fx1] eqn:Hfetch.
    pose proof (fetchFileRecord_reads _ _ _ _ _ _ Hfetch) as Hreads.
    destruct (IH w1) as (entries & w2 & fx2 & Hrest & Hjoined & Hsent).
    unfold bind at 1. destruct r as [e | fa]; rewrite Hsa;
      unfold bind at 1; rewrite Hrest; unfold ret; simpl;
      eexists _, _, _; (split; [reflexivity |]); split.
    + eapply Joined_null; eauto.
    + rewrite !sentTxs_app, Hreads, Hsent. reflexivity.
    + eapply Joined_file; eauto.
    + rewrite !sentTxs_app, Hreads, Hsent. reflexivity.
Qed.

Lemma Joined_grants p w grants entries w' :
  Joined p w grants entries w' → map sharedAccess entries = grants.
Proof. induction 1; simpl; congruence. Qed.

(** A view whose scan is answered. *)
Lemma sharedView_answered p filter label w accs w1 :
  account_sharedAccess p = true →
  sharedAccess_all filter w = (inr accs, w1) →
  ∃ entries w2 fx,
    sharedView p filter label w = (inr entries, w2, fx)
    ∧ Joined p w1 (List.filter (λ a, isActive (account a)) accs) entries w2
    ∧ sentTxs fx = [].
Proof.
  intros Hns Hscan. unfold sharedView. rewrite Hns.
  destruct (promise_all_map_withFile p (List.filter (λ a, isActive (account a)) accs) w1)
    as (entries & w2 & fx & Hmap & Hjoined & Hsent).
  exists entries, w2, ([AllSharedAccess filter] ++ (fx ++ [])). split; [| split].
  - unfold try_catch, mbind, M_bind, bind, request. rewrite Hscan.
    unfold bind. rewrite Hmap. reflexivity.
  - exact Hjoined.
  - rewrite !sentTxs_app, Hsent. reflexivity.
Qed.

(** C3.  With a wallet connected and the scan answered, each view resolves
    to a list that has one entry for every grant of the answer whose active
    flag is set, in the order of the answer.  An entry whose parent record
    could not be fetched has [file: null] ([Joined_null]); the fetches that
    follow go on as before, and the list is never cut short or emptied by a
    failed fetch. *)
Theorem shared_views_keep_unfetched_grants program wallet p me w :
  program = Some p → wallet_publicKey wallet = Some me →
  account_sharedAccess p = true →
  (∀ accs w1,
     sharedAccess_all {| offset := 72; bytes := toBase58 me |} w = (inr accs, w1) →
     ∃ entries w2 fx,
       getFilesSharedWithMe program wallet w = (inr entries, w2, fx)
       ∧ Joined p w1 (List.filter (λ a, isActive (account a)) accs) entries w2
       ∧ map sharedAccess entries = List.filter (λ a, isActive (account a)) accs)
  ∧ (∀ accs w1,
       sharedAccess_all {| offset := 40; bytes := toBase58 me |} w = (inr accs, w1) →
       ∃ entries w2 fx,
         getFilesIShared program wallet w = (inr entries, w2, fx)
         ∧ Joined p w1 (List.filter (λ a, isActive (account a)) accs) entries w2
         ∧ map sharedAccess entries = List.filter (λ a, isActive (account a)) accs).
Proof.
  intros -> Hme Hns. unfold getFilesSharedWithMe, getFilesIShared. rewrite Hme.
  split; intros accs w1 Hscan;
    [ destruct (sharedView_answered p _ "Error fetching files shared with me:"
                  w accs w1 Hns Hscan) as (entries & w2 & fx & Hview & Hjoined & _)
    | destruct (sharedView_answered p _ "Error fetching files I shared:"
                  w accs w1 Hns Hscan) as (entries & w2 & fx & Hview & Hjoined & _) ];
    exists entries, w2, fx; repeat split; eauto using Joined_grants.
Qed.

(** C1, as the code has it.  With a wallet connected and the scan answered,
    the grants a view lists are exactly the grants of the answer whose active
    flag is set.  Neither the expiry time of a grant nor the clock is
    consulted: a grant that is active on the ledger is listed whether or not
    its expiry time has passed. *)
Theorem shared_views_list_active_grants program wallet p me w :
  program = Some p → wallet_publicKey wallet = Some me →
  account_sharedAccess p = true →
  (∀ accs w1,
     sharedAccess_all {| offset := 72; bytes := toBase58 me |} w = (inr accs, w1) →
     ∃ entries w2 fx,
       getFilesSharedWithMe program wallet w = (inr entries, w2, fx)
       ∧ ∀ sa, sa ∈ map sharedAccess entries ↔ sa ∈ accs ∧ isActive (account sa) = true)
  ∧ (∀ accs w1,
       sharedAccess_all {| offset := 40; bytes := toBase58 me |} w = (inr accs, w1) →
       ∃ entries w2 fx,
         getFilesIShared program wallet w = (inr entries, w2, fx)
         ∧ ∀ sa, sa ∈ map sharedAccess entries ↔ sa ∈ accs ∧ isActive (account sa) = true).
Proof.
  intros -> Hme Hns. unfold getFilesSharedWithMe, getFilesIShared. rewrite Hme.
  split; intros accs w1 Hscan;
    [ destruct (sharedView_answered p _ "Error fetching files shared with me:"
                  w accs w1 Hns Hscan) as (entries & w2 & fx & Hview & Hjoined & _)
    | destruct (sharedView_answered p _ "Error fetching files I shared:"
                  w accs w1 Hns Hscan) as (entries & w2 & fx & Hview & Hjoined & _) ];
    exists entries, w2, fx; (split; [exact Hview |]); intros sa;
    rewrite (Joined_grants _ _ _ _ _ Hjoined), !list_elem_of_In, filter_In;
    reflexivity.
Qed.

(** A view resolves whatever the node answers. *)
Lemma sharedView_resolves p filter label w :
  ∃ entries w' fx,
    sharedView p filter label w = (inr entries, w', fx) ∧ sentTxs fx = [].
Proof.
  destruct (account_sharedAccess p) eqn:Hns.
  - destruct (sharedAccess_all filter w) as [[e | accs] w1] eqn:Hscan.
    + exists [], w1, ([AllSharedAccess filter] ++ ([ConsoleError label e] ++ [])).
      split; [| reflexivity].
      unfold sharedView, try_catch, mbind, M_bind, bind, request.
      rewrite Hns, Hscan. reflexivity.
    + destruct (sharedView_answered p filter label w accs w1 Hns Hscan)
        as (entries & w2 & fx & Hview & _ & Hsent).
      by exists entries, w2, fx.
  - exists [], w, []. split; [| reflexivity].
    unfold sharedView, try_catch. rewrite Hns. reflexivity.
Qed.

(** The four list functions of the hook catch every error of the node: each
    call resolves to a list, and none of them sends a transaction. *)
Theorem list_views_never_reject program wallet w :
  (∃ l w' fx, getUserFiles program wallet w = (inr l, w', fx) ∧ sentTxs fx = [])
  ∧ (∀ fileName, ∃ l w' fx,
       getFileSharedAccess program wallet fileName w = (inr l, w', fx)
       ∧ sentTxs fx = [])
  ∧ (∃ l w' fx, getFilesSharedWithMe program wallet w = (inr l, w', fx) ∧ sentTxs fx = [])
  ∧ (∃ l w' fx, getFilesIShared program wallet w = (inr l, w', fx) ∧ sentTxs fx = []).
Proof.
  unfold getUserFiles, getFileSharedAccess, getFilesSharedWithMe, getFilesIShared.
  destruct program as [p |], (wallet_publicKey wallet) as [pk |];
    try (repeat split; intros; by exists [], w, []).
  repeat apply conj.
  - unfold try_catch, request, console, mbind, M_bind, bind.
    destruct (account_fileRecord p); [| by exists [], w, []].
    destruct (fileRecord_all _ w) as [[e | l] w1]; [| by eexists _, _, _].
    destruct (message_includes "rate limited" e); by eexists _, _, _.
  - intros name. unfold try_catch, getFileRecordPDA, pda_of, lift, request, console,
      mbind, M_bind, bind.
    destruct (findProgramAddressSync _ PROGRAM_ID) as [e | [pda bump]];
      [by eexists _, _, _ |].
    destruct (account_sharedAccess p); [| by eexists _, _, _].
    destruct (sharedAccess_all _ w) as [[e | l] w1]; by eexists _, _, _.
  - apply sharedView_resolves.
  - apply sharedView_resolves.
Qed.

End SharedViews.

(** ** The handlers of the two components *)

Section Handlers.
Context `{Cluster}.
Implicit Types (program : option Program) (wallet : Wallet) (w : World).

(** C10.  For an entry without file metadata the revoke handler shows the
    error "Cannot revoke" and returns: the state of the view is as before,
    [revokeAccess] is not called and nothing is sent to the node, whatever
    grant the entry carries. *)
Theorem revoke_needs_file_metadata program wallet sa (st : SharedFiles.State) w :
  SharedFiles.handleRevoke program wallet {| sharedAccess := sa; file := None |} st w
  = (st,
     [Toast toast_error "Cannot revoke" (text (lit "Missing file metadata")) None],
     w, [])
  ∧ SharedFiles.step (SharedFiles.press {| sharedAccess := sa; file := None |})
      {| SharedFiles.state := st; SharedFiles.awaiting := []; SharedFiles.timers := [];
         SharedFiles.issued := [] |}
    = Some {| SharedFiles.state := st; SharedFiles.awaiting := [];
              SharedFiles.timers := []; SharedFiles.issued := [] |}.
Proof. split; reflexivity. Qed.

(** C6, as the code has it.  When the transaction of a privacy toggle is
    rejected with an error whose message contains "AlreadyProcessed", the
    handler catches the error, takes the file out of the processing set,
    shows the error toast "Transaction Already Processed" and sets a timer
    of one second whose callback is [fetchFiles].  The handler itself ends
    normally. *)
Theorem already_processed_is_reported_and_refreshed
    program wallet (st : FileList.State) w f b error w1 sent :
  FileList.file (FileList.confirmDialog st) = Some f →
  FileList.newPrivacy (FileList.confirmDialog st) = b →
  (if b then makePublic program wallet (fileName (FileList.account f))
   else makePrivate program wallet (fileName (FileList.account f))) w
    = (inl error, w1, sent) →
  message_includes "AlreadyProcessed" error = true →
  FileList.executePrivacyToggle program wallet st w
  = (FileList.setProcessingFiles (λ prev, prev ∖ {[FileList.reference (FileList.publicKey f)]})
       (FileList.setProcessingFiles (λ prev, prev ∪ {[FileList.reference (FileList.publicKey f)]})
          (FileList.setConfirmDialog FileList.closedDialog st)),
     [Toast toast_info "Updating privacy..."
        (text (lit "Processing blockchain transaction")) None;
      Call (if b then call_makePublic (fileName (FileList.account f))
            else call_makePrivate (fileName (FileList.account f)));
      Console_error "Privacy toggle error:" error;
      Toast toast_error "Transaction Already Processed"
        (text (lit "This transaction was already submitted. Refreshing file list..."))
        (Some 3000);
      SetTimeout cb_fetchFiles 1000],
     w1, sent)
  ∧ ∀ walletKey st',
      FileList.runCallback walletKey cb_fetchFiles st'
      = FileList.fetchFiles_start walletKey st'.
Proof.
  intros Hfile Hb Hcall Hmsg. split; [| reflexivity].
  unfold FileList.executePrivacyToggle, FileList.executePrivacyToggle_start.
  rewrite Hfile, Hb, Hcall.
  unfold FileList.executePrivacyToggle_settle. rewrite Hmsg. reflexivity.
Qed.

End Handlers.

(** ** The components over time *)

Section PendingSets.
Context {K : Type} `{Countable K}.
Implicit Types (P : gset K) (l : list K).

(** How a set of pending keys follows the list of operations in flight. *)
Lemma pending_same P l l' :
  l' ≡ₚ l → NoDup l → (∀ x, x ∈ P ↔ x ∈ l) →
  NoDup l' ∧ (∀ x, x ∈ P ↔ x ∈ l').
Proof.
  intros Hp Hnd Hset. split; [by rewrite Hp |].
  intros x. by rewrite Hp.
Qed.

Lemma pending_acquire P l l' k :
  l' ≡ₚ k :: l → k ∉ P → NoDup l → (∀ x, x ∈ P ↔ x ∈ l) →
  NoDup l' ∧ (∀ x, x ∈ P ∪ {[k]} ↔ x ∈ l').
Proof.
  intros Hp Hk Hnd Hset. split.
  - rewrite Hp. apply NoDup_cons. split; [by rewrite <- Hset | done].
  - intros x. rewrite Hp, elem_of_union, elem_of_singleton, elem_of_cons, Hset. tauto.
Qed.

Lemma pending_release P l l' k :
  l ≡ₚ k :: l' → NoDup l → (∀ x, x ∈ P ↔ x ∈ l) →
  NoDup l' ∧ (∀ x, x ∈ P ∖ {[k]} ↔ x ∈ l').
Proof.
  intros Hp Hnd Hset. rewrite Hp in Hnd. apply NoDup_cons in Hnd as [Hk Hnd'].
  split; [done |]. intros x.
  rewrite elem_of_difference, elem_of_singleton, Hset, Hp, elem_of_cons.
  split; [intros [[-> | Hx] Hne]; done | intros Hx; split; [by right | by intros ->]].
Qed.

Lemma release_acquired P k : (P ∪ {[k]}) ∖ {[k]} = P ∖ {[k]}.
Proof.
  apply set_eq. intros x.
  rewrite !elem_of_difference, elem_of_union, elem_of_singleton. tauto.
Qed.

Lemma release_fresh P k : k ∉ P → (P ∪ {[k]}) ∖ {[k]} = P.
Proof.
  intros Hk. apply set_eq. intros x.
  rewrite elem_of_difference, elem_of_union, elem_of_singleton.
  split; [tauto |]. intros Hx. split; [by left | by intros ->].
Qed.

End PendingSets.

Section FileListOverTime.
Context `{Web3}.
Import FileList.

Local Abbreviation keys :=
  (map (λ call : FileRecord * bool, reference (publicKey (fst call)))).
Local Abbreviation rels := (λ tm : list Callback, List.concat (map releases tm)).

Lemma rels_app (tm tm' : list Callback) : rels (tm ++ tm') = rels tm ++ rels tm'.
Proof. simpl. by rewrite map_app, concat_app. Qed.

Lemma rels_delete (tm : list Callback) i cb :
  tm !! i = Some cb → rels tm ≡ₚ releases cb ++ rels (delete i tm).
Proof.
  intros Hi. simpl. rewrite (delete_Permutation _ _ _ Hi) at 1. reflexivity.
Qed.

Lemma keys_delete (aw : list (FileRecord * bool)) i f b :
  aw !! i = Some (f, b) → keys aw ≡ₚ reference (publicKey f) :: keys (delete i aw).
Proof.
  intros Hi. rewrite (delete_Permutation _ _ _ Hi) at 1. reflexivity.
Qed.

Lemma invariant_after c st fx aw tm :
  NoDup (keys aw ++ rels (tm ++ timersOf fx))
  ∧ (∀ k, k ∈ processingFiles st ↔ k ∈ keys aw ++ rels (tm ++ timersOf fx)) →
  (∀ f, file (confirmDialog st) = Some f →
        reference (publicKey f) ∉ processingFiles st) →
  Invariant (after c st fx aw tm).
Proof. intros [Hnd Hset] Hdlg. repeat split; try done; apply Hset. Qed.

Lemma step_invariant e c c' : Invariant c → step e c = Some c' → Invariant c'.
Proof.
  intros (Hnd & Hset & Hdlg) Hstep. unfold busy in Hnd, Hset.
  destruct e; simpl in Hstep.
  - (* the switch is flipped *)
    unfold handlePrivacyToggle in Hstep. case_decide; simplify_eq;
      apply invariant_after; simpl; rewrite ?app_nil_r; try done.
    intros f' [= <-]. done.
  - (* the dialog is dismissed *)
    simplify_eq. apply invariant_after; simpl; rewrite ?app_nil_r; done.
  - (* the dialog is confirmed *)
    unfold executePrivacyToggle_start in Hstep.
    destruct (file (confirmDialog (state c))) as [f |] eqn:Hfile; simplify_eq;
      apply invariant_after; simpl; rewrite ?app_nil_r; try done.
    apply (pending_acquire _ (keys (awaiting c) ++ rels (timers c))).
    + rewrite map_app. simpl. rewrite <- app_assoc. simpl.
      symmetry. apply Permutation_middle.
    + by apply Hdlg.
    + done.
    + done.
    + by rewrite Hfile.
  - (* a transaction settles *)
    destruct (awaiting c !! i) as [[f b] |] eqn:Hi; [| done].
    pose proof (keys_delete _ _ _ _ Hi) as Hkeys.
    destruct outcome as [error | txSignature]; simpl in Hstep; simplify_eq;
      apply invariant_after; simpl.
    + assert (rels (timers c ++
                timersOf (if message_includes "AlreadyProcessed" error
                          then [Toast toast_error "Transaction Already Processed"
                                  (text (lit "This transaction was already submitted. Refreshing file list..."))
                                  (Some 3000);
                                SetTimeout cb_fetchFiles 1000]
                          else [Toast toast_error "Transaction Failed"
                                  (text (message_or error "Failed to update privacy setting"))
                                  (Some 5000)])) = rels (timers c)) as Hrels.
      { rewrite rels_app. destruct (message_includes _ _); simpl; by rewrite app_nil_r. }
      simpl in Hrels. rewrite Hrels.
      apply (pending_release _ (keys (awaiting c) ++ rels (timers c))); try done.
      simpl. by rewrite Hkeys.
    + intros f' Hf' [Hin _]%elem_of_difference. by apply (Hdlg f').
    + apply (pending_same _ (keys (awaiting c) ++ rels (timers c))); try done.
      rewrite map_app, concat_app. simpl. rewrite Hkeys. simpl.
      rewrite (Permutation_app_comm (List.concat _) [_]). simpl.
      symmetry. apply Permutation_middle.
    + done.
  - (* a timer fires *)
    destruct (timers c !! i) as [cb |] eqn:Hi; [| done].
    pose proof (rels_delete _ _ _ Hi) as Hrels. simpl in Hrels.
    destruct cb; simpl in Hstep, Hrels.
    + destruct walletKey; simpl in Hstep; simplify_eq;
        apply invariant_after; simpl; rewrite ?app_nil_r.
      * apply (pending_release _ (keys (awaiting c) ++ rels (timers c))); try done.
        simpl. rewrite Hrels. symmetry. apply Permutation_middle.
      * intros f' Hf' [Hin _]%elem_of_difference. by apply (Hdlg f').
      * apply (pending_release _ (keys (awaiting c) ++ rels (timers c))); try done.
        simpl. rewrite Hrels. symmetry. apply Permutation_middle.
      * intros f' Hf' [Hin _]%elem_of_difference. by apply (Hdlg f').
    + destruct walletKey; simpl in Hstep; simplify_eq;
        apply invariant_after; simpl; rewrite ?app_nil_r; try done;
        apply (pending_same _ (keys (awaiting c) ++ rels (timers c))); try done;
        simpl; by rewrite Hrels.
    + simplify_eq. apply invariant_after; simpl; rewrite ?app_nil_r; try done.
      apply (pending_same _ (keys (awaiting c) ++ rels (timers c))); try done.
      simpl. by rewrite Hrels.
  - (* the list is fetched again *)
    destruct walletKey; simpl in Hstep; simplify_eq;
      apply invariant_after; simpl; rewrite ?app_nil_r; done.
  - (* the files arrive *)
    destruct answer; simpl in Hstep; simplify_eq;
      apply invariant_after; simpl; rewrite ?app_nil_r; done.
Qed.

Lemma initial_invariant : Invariant initial.
Proof.
  split; [constructor |]. split; [| done].
  intros k. split; intros Hk.
  - by apply elem_of_empty in Hk.
  - by apply elem_of_nil in Hk.
Qed.

Lemma run_invariant es : ∀ c c', Invariant c → run es c = Some c' → Invariant c'.
Proof.
  induction es as [| e es IH]; intros c c' Hinv Hrun; simpl in Hrun.
  - by simplify_eq.
  - destruct (step e c) as [c1 |] eqn:Hstep; [| done].
    eapply IH; [| exact Hrun]. eapply step_invariant; eauto.
Qed.

End FileListOverTime.

Section SharedFilesOverTime.
Context `{Cluster}.
Import SharedFiles.

Lemma view_invariant_after c st fx aw tm :
  NoDup aw ∧ (∀ k, k ∈ revokingKeys st ↔ k ∈ aw) →
  SharedFiles.Invariant (after c st fx aw tm).
Proof. done. Qed.

Lemma view_step_invariant e c c' :
  SharedFiles.Invariant c → step e c = Some c' → SharedFiles.Invariant c'.
Proof.
  intros [Hnd Hset] Hstep. destruct e; simpl in Hstep.
  - (* the button is pressed *)
    unfold handleRevoke_start in Hstep.
    destruct (file entry) as [f |]; [| by simplify_eq].
    case_decide as Hkey; simplify_eq; [done |].
    apply view_invariant_after; simpl.
    apply (pending_acquire _ (awaiting c)); try done.
    symmetry. apply Permutation_cons_append.
  - (* a revocation settles *)
    destruct (awaiting c !! i) as [key |] eqn:Hi; [| done]. simplify_eq.
    apply view_invariant_after; simpl.
    apply (pending_release _ (awaiting c)); try done.
    by apply delete_Permutation.
  - (* a timer fires *)
    destruct (timers c !! i) as [cb |]; [| done].
    destruct cb, walletKey; simpl in Hstep; by simplify_eq.
  - (* the view is refreshed *)
    destruct walletKey; simpl in Hstep; by simplify_eq.
  - (* the views arrive *)
    destruct answer as [e | [a b]]; simpl in Hstep; by simplify_eq.
Qed.

Lemma view_initial_invariant : SharedFiles.Invariant initial.
Proof.
  split; simpl; [constructor |]. intros k. split; intros Hk.
  - by apply elem_of_empty in Hk.
  - by apply elem_of_nil in Hk.
Qed.

Lemma view_run_invariant es : ∀ c c',
  SharedFiles.Invariant c → run es c = Some c' → SharedFiles.Invariant c'.
Proof.
  induction es as [| e es IH]; intros c c' Hinv Hrun; simpl in Hrun.
  - by simplify_eq.
  - destruct (step e c) as [c1 |] eqn:Hstep; [| done].
    eapply IH; [| exact Hrun]. eapply view_step_invariant; eauto.
Qed.

End SharedFilesOverTime.

(** ** Operations in flight and the pending sets *)

Section PendingOperations.
Context `{Cluster}.

(** What the two guards do.  While the key object of a row is in the
    processing set, flipping the switch of that row is answered with the
    error toast "Transaction in progress": the dialog does not open and no
    call is made.  While the key of a grant (a string) is in the set of keys
    being revoked, pressing its revoke button again returns at once: no call
    and no transaction, and no notification either.  Over any sequence of
    events, no key object of the list and no key of the view ever has two
    operations in flight, and whatever is in flight is in the pending set.
    For the file list this is a statement about key objects, not about
    files: a row fetched again has a new key object. *)
Theorem pending_keys_are_guarded :
  (∀ f newPrivacy st,
     FileList.reference (FileList.publicKey f) ∈ FileList.processingFiles st →
     FileList.handlePrivacyToggle f newPrivacy st
     = (st, [Toast toast_error "Transaction in progress"
               (text (lit "Please wait for the current transaction to complete"))
               None]))
  ∧ (∀ program wallet entry f st w,
       file entry = Some f →
       SharedFiles.revokeKey (fileName (account f))
         (SharedFiles.sharedWithText (sharedWith (account (sharedAccess entry))))
         ∈ SharedFiles.revokingKeys st →
       SharedFiles.handleRevoke program wallet entry st w = (st, [], w, []))
  ∧ (∀ es c,
       FileList.run es FileList.initial = Some c →
       NoDup (FileList.busy c)
       ∧ ∀ k, k ∈ FileList.busy c → k ∈ FileList.processingFiles (FileList.state c))
  ∧ (∀ es c,
       SharedFiles.run es SharedFiles.initial = Some c →
       NoDup (SharedFiles.awaiting c)
       ∧ ∀ k, k ∈ SharedFiles.awaiting c
              → k ∈ SharedFiles.revokingKeys (SharedFiles.state c)).
Proof.
  repeat apply conj.
  - intros f b st Hin. unfold FileList.handlePrivacyToggle.
    case_decide; [reflexivity | done].
  - intros program wallet entry f st w Hfile Hin.
    unfold SharedFiles.handleRevoke, SharedFiles.handleRevoke_start.
    rewrite Hfile. case_decide; [reflexivity | done].
  - intros es c Hrun.
    destruct (run_invariant es _ _ initial_invariant Hrun) as (Hnd & Hset & _).
    split; [exact Hnd |]. intros k. apply Hset.
  - intros es c Hrun.
    destruct (view_run_invariant es _ _ view_initial_invariant Hrun) as (Hnd & Hset).
    split; [exact Hnd |]. intros k. apply Hset.
Qed.

Lemma drain_release walletKey k st :
  FileList.processingFiles (FileList.drain walletKey [cb_fetchFiles_release k] st)
  = FileList.processingFiles st ∖ {[k]}.
Proof. destruct walletKey; reflexivity. Qed.

Lemma drain_fetchFiles walletKey st :
  FileList.processingFiles (FileList.drain walletKey [cb_fetchFiles] st)
  = FileList.processingFiles st.
Proof. destruct walletKey; reflexivity. Qed.

(** C8.  A privacy toggle run to its end, and then the timers it has set,
    leaves the processing set without the file it added: on the error path
    the [catch] block takes it out, on the success path the timer set by the
    [try] block does.  A revoke run to its end leaves the set of keys being
    revoked as it found it, on the success path and on the error path.  Over
    any sequence of events, every member of a pending set belongs to an
    operation that has not settled yet or, for the file list, to a timer
    that will take it out. *)
Theorem pending_keys_are_released :
  (∀ program wallet st w st2 fx w2 sent walletKey,
     FileList.executePrivacyToggle program wallet st w = (st2, fx, w2, sent) →
     FileList.processingFiles (FileList.drain walletKey (timersOf fx) st2)
     = match FileList.file (FileList.confirmDialog st) with
       | Some f => FileList.processingFiles st ∖ {[FileList.reference (FileList.publicKey f)]}
       | None => FileList.processingFiles st
       end)
  ∧ (∀ program wallet entry st w st2 fx w2 sent,
       SharedFiles.handleRevoke program wallet entry st w = (st2, fx, w2, sent) →
       SharedFiles.revokingKeys st2 = SharedFiles.revokingKeys st)
  ∧ (∀ es c k,
       FileList.run es FileList.initial = Some c →
       k ∈ FileList.processingFiles (FileList.state c) → k ∈ FileList.busy c)
  ∧ (∀ es c k,
       SharedFiles.run es SharedFiles.initial = Some c →
       k ∈ SharedFiles.revokingKeys (SharedFiles.state c) → k ∈ SharedFiles.awaiting c).
Proof.
  repeat apply conj.
  - intros program wallet st w st2 fx w2 sent walletKey.
    unfold FileList.executePrivacyToggle, FileList.executePrivacyToggle_start.
    destruct (FileList.file (FileList.confirmDialog st)) as [f |];
      [| intros [= <- <- <- <-]; reflexivity].
    destruct ((if FileList.newPrivacy (FileList.confirmDialog st)
               then makePublic program wallet (fileName (FileList.account f))
               else makePrivate program wallet (fileName (FileList.account f))) w)
      as [[[error | txSignature] w1] sent1].
    + unfold FileList.executePrivacyToggle_settle. intros [= <- <- <- <-].
      destruct (message_includes "AlreadyProcessed" error);
        cbn [timersOf app]; rewrite ?drain_fetchFiles; apply release_acquired.
    + unfold FileList.executePrivacyToggle_settle. intros [= <- <- <- <-].
      cbn [timersOf app]. rewrite drain_release. apply release_acquired.
  - intros program wallet entry st w st2 fx w2 sent.
    unfold SharedFiles.handleRevoke, SharedFiles.handleRevoke_start.
    destruct (file entry) as [f |]; [| intros [= <- <- <- <-]; reflexivity].
    case_decide as Hkey; [intros [= <- <- <- <-]; reflexivity |].
    destruct (revokeAccess _ _ _ _ w) as [[outcome w1] sent1].
    simpl. intros [= <- <- <- <-]. simpl. by apply release_fresh.
  - intros es c k Hrun.
    destruct (run_invariant es _ _ initial_invariant Hrun) as (_ & Hset & _).
    apply Hset.
  - intros es c k Hrun.
    destruct (view_run_invariant es _ _ view_initial_invariant Hrun) as (_ & Hset).
    apply Hset.
Qed.

(** Over any sequence of events, the key object of the row the confirmation
    dialog asks about is not in the processing set, and no operation in
    flight and no timer holds it: what the dialog confirms is never a row
    whose own key is pending.  (The same file may still be pending under the
    key object of an earlier fetch.) *)
Theorem dialog_key_is_not_pending es c f :
  FileList.run es FileList.initial = Some c →
  FileList.file (FileList.confirmDialog (FileList.state c)) = Some f →
  (FileList.reference (FileList.publicKey f) ∉ FileList.processingFiles (FileList.state c))
  ∧ (FileList.reference (FileList.publicKey f) ∉ FileList.busy c).
Proof.
  intros Hrun Hfile.
  destruct (run_invariant es _ _ initial_invariant Hrun) as (_ & Hset & Hdlg).
  split; [by apply Hdlg |]. rewrite <- Hset. by apply Hdlg.
Qed.

End PendingOperations.

(** ** The encoding of file names *)

Section Encoding.

Lemma forall_below (n : nat) (P : N → bool) :
  forallb P (map N.of_nat (seq 0 n)) = true → ∀ x, x < N.of_nat n → P x = true.
Proof.
  intros Hall x Hx. rewrite forallb_forall in Hall. apply Hall.
  rewrite <- (N2Nat.id x). apply in_map. apply in_seq. lia.
Qed.

Lemma lor_low (hi : N) (n : nat) :
  forallb (λ x, N.lor hi x =? hi + x) (map N.of_nat (seq 0 n)) = true →
  ∀ x, x < N.of_nat n → N.lor hi x = hi + x.
Proof. intros Hall x Hx. apply N.eqb_eq. by apply (forall_below n (λ x, N.lor hi x =? hi + x)). Qed.

Lemma lor_80 x : x < 64 → N.lor 0x80 x = 0x80 + x.
Proof. apply (lor_low 0x80 64). vm_compute. reflexivity. Qed.
Lemma lor_C0 x : x < 32 → N.lor 0xC0 x = 0xC0 + x.
Proof. apply (lor_low 0xC0 32). vm_compute. reflexivity. Qed.
Lemma lor_E0 x : x < 16 → N.lor 0xE0 x = 0xE0 + x.
Proof. apply (lor_low 0xE0 16). vm_compute. reflexivity. Qed.
Lemma lor_F0 x : x < 8 → N.lor 0xF0 x = 0xF0 + x.
Proof. apply (lor_low 0xF0 8). vm_compute. reflexivity. Qed.

Lemma land_3F x : N.land x 0x3F = x mod 64.
Proof. change 0x3F with (N.ones 6). by rewrite N.land_ones. Qed.

Lemma utf8CodePoint_octets cp : cp < 0x110000 → utf8CodePoint cp = octets cp.
Proof.
  intros Hcp. unfold utf8CodePoint, octets.
  rewrite !land_3F, !N.shiftr_div_pow2.
  change (2 ^ 6) with 64. change (2 ^ 12) with (64 * 64).
  change (2 ^ 18) with (64 * (64 * 64)).
  rewrite <- !N.Div0.div_div.
  destruct (N.ltb_spec cp 0x80); [reflexivity |].
  destruct (N.ltb_spec cp 0x800).
  { rewrite lor_C0, lor_80; [reflexivity | div_lia ..]. }
  destruct (N.ltb_spec cp 0x10000).
  { rewrite lor_E0, !lor_80; [reflexivity | div_lia ..]. }
  rewrite lor_F0, !lor_80; [reflexivity | div_lia ..].
Qed.

Lemma octets_announced cp :
  cp < 0x110000 →
  ∃ b0 more, octets cp = b0 :: more ∧ List.length (octets cp) = announced b0.
Proof.
  intros Hcp. unfold octets.
  destruct (N.ltb_spec cp 0x80) as [H1 | H1].
  { eexists _, _. split; [reflexivity |]. unfold announced.
    destruct (N.ltb_spec cp 0x80); [reflexivity | lia]. }
  destruct (N.ltb_spec cp 0x800) as [H2 | H2].
  { eexists _, _. split; [reflexivity |]. unfold announced.
    destruct (N.ltb_spec (0xC0 + cp / 64) 0x80); [div_lia |].
    destruct (N.ltb_spec (0xC0 + cp / 64) 0xE0); [reflexivity | div_lia]. }
  destruct (N.ltb_spec cp 0x10000) as [H3 | H3].
  { eexists _, _. split; [reflexivity |]. unfold announced.
    destruct (N.ltb_spec (0xE0 + cp / 64 / 64) 0x80); [div_lia |].
    destruct (N.ltb_spec (0xE0 + cp / 64 / 64) 0xE0); [div_lia |].
    destruct (N.ltb_spec (0xE0 + cp / 64 / 64) 0xF0); [reflexivity | div_lia]. }
  eexists _, _. split; [reflexivity |]. unfold announced.
  destruct (N.ltb_spec (0xF0 + cp / 64 / 64 / 64) 0x80); [div_lia |].
  destruct (N.ltb_spec (0xF0 + cp / 64 / 64 / 64) 0xE0); [div_lia |].
  destruct (N.ltb_spec (0xF0 + cp / 64 / 64 / 64) 0xF0); [div_lia | reflexivity].
Qed.

(** Two numbers with the same quotient and remainder by 64. *)
Lemma glue64 x y : 0x80 + x mod 64 = 0x80 + y mod 64 → x / 64 = y / 64 → x = y.
Proof.
  intros Hm Hd. rewrite (N.div_mod x 64), (N.div_mod y 64) by done. lia.
Qed.

Lemma octets_inj cp1 cp2 :
  cp1 < 0x110000 → cp2 < 0x110000 → octets cp1 = octets cp2 → cp1 = cp2.
Proof.
  intros Hcp1 Hcp2. unfold octets.
  destruct (N.ltb_spec cp1 0x80); [| destruct (N.ltb_spec cp1 0x800);
                                     [| destruct (N.ltb_spec cp1 0x10000)]];
  (destruct (N.ltb_spec cp2 0x80); [| destruct (N.ltb_spec cp2 0x800);
                                      [| destruct (N.ltb_spec cp2 0x10000)]]);
  intros Heq; simplify_eq; try done.
  - apply glue64; [done | lia].
  - apply glue64; [done |]. apply glue64; [done | lia].
  - apply glue64; [done |]. apply glue64; [done |]. apply glue64; [done | lia].
Qed.

Lemma surrogatePair_range hi lo :
  isLeadSurrogate hi = true → isTrailSurrogate lo = true →
  0x10000 ≤ surrogatePair hi lo < 0x110000
  ∧ surrogatePair hi lo = 0x10000 + (hi - 0xD800) * 1024 + (lo - 0xDC00).
Proof.
  unfold isLeadSurrogate, isTrailSurrogate, surrogatePair.
  rewrite !andb_true_iff, !N.leb_le, N.shiftl_mul_pow2.
  change (2 ^ 10) with 1024. lia.
Qed.

Lemma Token_range cp u : Token cp u → cp < 0x110000.
Proof.
  destruct 1 as [c | hi lo Hhi Hlo]; [lia |].
  by destruct (surrogatePair_range hi lo Hhi Hlo) as [[_ ?] _].
Qed.

Lemma Token_inj cp u u' : Token cp u → Token cp u' → u = u'.
Proof.
  destruct 1 as [c Hc1 Hc2 Hc | hi lo Hhi Hlo]; inversion 1 as [| hi' lo' Hhi' Hlo' Heq]; subst.
  - reflexivity.
  - destruct (surrogatePair_range hi' lo' Hhi' Hlo') as [[? _] _]. lia.
  - destruct (surrogatePair_range hi lo Hhi Hlo) as [[? _] _]. lia.
  - destruct (surrogatePair_range hi lo Hhi Hlo) as [_ Hp].
    destruct (surrogatePair_range hi' lo' Hhi' Hlo') as [_ Hp'].
    rewrite Hp, Hp' in Heq.
    unfold isLeadSurrogate, isTrailSurrogate in *.
    rewrite !andb_true_iff, !N.leb_le in *.
    assert (hi = hi' ∧ lo = lo') as [-> ->] by lia. reflexivity.
Qed.

Lemma Buffer_from_token cp u rest :
  Token cp u → Buffer_from (u ++ rest) = utf8CodePoint cp ++ Buffer_from rest.
Proof.
  destruct 1 as [c Hc1 Hc2 Hc | hi lo Hhi Hlo]; simpl.
  - by rewrite Hc1, Hc2.
  - by rewrite Hhi, Hlo.
Qed.

Lemma wellFormed_Tokens n : ∀ s, (List.length s ≤ n)%nat → wellFormed s = true → Tokens s.
Proof.
  induction n as [| n IH]; intros [| c rest] Hlen Hwf; simpl in *;
    try constructor; try lia.
  destruct (isLeadSurrogate c) eqn:Hlead.
  - destruct rest as [| d rest']; [done |].
    apply andb_true_iff in Hwf as [Htrail Hwf]. simpl in Hlen.
    apply (tokens_cons (surrogatePair c d) [c; d] rest').
    + by constructor.
    + apply IH; [lia | done].
  - apply andb_true_iff in Hwf as [Hc Hwf]. apply andb_true_iff in Hc as [Htrail Hc].
    apply (tokens_cons c [c] rest).
    + constructor; [done | by apply negb_true_iff | by apply N.ltb_lt].
    + apply IH; [lia | done].
Qed.

(** A code point at the head of a byte sequence can be read off in one way
    only. *)
Lemma utf8CodePoint_prefix cp1 cp2 r1 r2 :
  cp1 < 0x110000 → cp2 < 0x110000 →
  utf8CodePoint cp1 ++ r1 = utf8CodePoint cp2 ++ r2 → cp1 = cp2 ∧ r1 = r2.
Proof.
  intros Hcp1 Hcp2. rewrite !utf8CodePoint_octets by done. intros Heq.
  destruct (octets_announced cp1 Hcp1) as (b1 & m1 & Ho1 & Hl1).
  destruct (octets_announced cp2 Hcp2) as (b2 & m2 & Ho2 & Hl2).
  assert (b1 = b2) as <-.
  { rewrite Ho1, Ho2 in Heq. by simplify_eq/=. }
  apply app_inj_1 in Heq as [Ho Hr]; [| by rewrite Hl1, Hl2].
  split; [by apply octets_inj | done].
Qed.

Lemma Tokens_inj s1 : Tokens s1 → ∀ s2, Tokens s2 → Buffer_from s1 = Buffer_from s2 → s1 = s2.
Proof.
  induction 1 as [| cp1 u1 rest1 Htok1 Hrest1 IH];
    intros s2 [| cp2 u2 rest2 Htok2 Hrest2] Heq.
  - reflexivity.
  - rewrite (Buffer_from_token _ _ _ Htok2) in Heq. simpl in Heq.
    rewrite utf8CodePoint_octets in Heq by (by eapply Token_range).
    destruct (octets_announced cp2 (Token_range _ _ Htok2)) as (b & m & Ho & _).
    by rewrite Ho in Heq.
  - rewrite (Buffer_from_token _ _ _ Htok1) in Heq. simpl in Heq.
    rewrite utf8CodePoint_octets in Heq by (by eapply Token_range).
    destruct (octets_announced cp1 (Token_range _ _ Htok1)) as (b & m & Ho & _).
    by rewrite Ho in Heq.
  - rewrite (Buffer_from_token _ _ _ Htok1), (Buffer_from_token _ _ _ Htok2) in Heq.
    apply utf8CodePoint_prefix in Heq as [<- Heq]; [| by eapply Token_range ..].
    rewrite (Token_inj _ _ _ Htok1 Htok2). f_equal. by apply IH.
Qed.

Lemma Buffer_from_inj s1 s2 :
  wellFormed s1 = true → wellFormed s2 = true →
  Buffer_from s1 = Buffer_from s2 → s1 = s2.
Proof.
  intros H1 H2. apply Tokens_inj; eapply wellFormed_Tokens; eauto.
Qed.

End Encoding.

(** ** Derived addresses *)

Section Addresses.
Context `{Cluster}.

Lemma pda_of_run seeds w :
  pda_of seeds w
  = (match findProgramAddressSync seeds PROGRAM_ID with
     | inl e => inl e
     | inr (pda, _) => inr pda
     end, w, []).
Proof. reflexivity. Qed.

Lemma pda_of_derived seeds w a :
  pda_of seeds w = (inr a, w, []) →
  ∃ bump, findProgramAddressSync seeds PROGRAM_ID = inr (a, bump).
Proof.
  rewrite pda_of_run.
  destruct (findProgramAddressSync seeds PROGRAM_ID) as [e | [pda bump]]; [done |].
  intros [= ->]. by exists bump.
Qed.

Lemma concat3 {A} (a b c : list A) : List.concat [a; b; c] = a ++ b ++ c.
Proof. simpl. by rewrite app_nil_r. Qed.

Lemma file_seed : Buffer_from (lit "file") = [102; 105; 108; 101].
Proof. reflexivity. Qed.

Lemma shared_access_seed :
  Buffer_from (lit "shared_access")
  = [115; 104; 97; 114; 101; 100; 95; 97; 99; 99; 101; 115; 115].
Proof. reflexivity. Qed.

(** C4, as the code has it.  The two derivations read nothing but their
    arguments and the program id: in any state of the world a call gives
    the same result, changes nothing and sends nothing.  The file name
    enters the seeds through its UTF-8 encoding, so two names with the same
    encoding have the same address for every owner.  The library hashes the
    concatenation of the seeds, and for two different well-formed names of
    one owner the client hands it different octets.  Where the library gives
    one address to two seed lists only if their concatenations agree, two
    names of one owner have the same address exactly when their encodings
    agree, which for well-formed names means that the names agree; two
    owners whose keys have the same length share a file address only if the
    keys have the same octets; two grants share an address only if file
    record and grantee have the same octets; and no file address is the
    address of a grant. *)
Theorem derived_addresses_follow_the_encoded_seeds :
  (∀ owner fileName w,
     getFileRecordPDA owner fileName w
     = (match findProgramAddressSync
                [Buffer_from (lit "file"); toBuffer owner; Buffer_from fileName]
                PROGRAM_ID with
        | inl e => inl e
        | inr (pda, _) => inr pda
        end, w, []))
  ∧ (∀ fileRecordPDA grantee w,
       getSharedAccessPDA fileRecordPDA grantee w
       = (match findProgramAddressSync
                  [Buffer_from (lit "shared_access"); toBuffer fileRecordPDA;
                   toBuffer grantee]
                  PROGRAM_ID with
          | inl e => inl e
          | inr (pda, _) => inr pda
          end, w, []))
  ∧ (∀ owner name1 name2 w,
       Buffer_from name1 = Buffer_from name2 →
       getFileRecordPDA owner name1 w = getFileRecordPDA owner name2 w)
  ∧ (∀ owner name1 name2,
       wellFormed name1 = true → wellFormed name2 = true → name1 ≠ name2 →
       List.concat [Buffer_from (lit "file"); toBuffer owner; Buffer_from name1]
       ≠ List.concat [Buffer_from (lit "file"); toBuffer owner; Buffer_from name2])
  ∧ ((∀ seeds1 seeds2 a bump1 bump2,
        findProgramAddressSync seeds1 PROGRAM_ID = inr (a, bump1) →
        findProgramAddressSync seeds2 PROGRAM_ID = inr (a, bump2) →
        List.concat seeds1 = List.concat seeds2) →
     (∀ owner name1 name2 w1 w2 a1 a2,
        getFileRecordPDA owner name1 w1 = (inr a1, w1, []) →
        getFileRecordPDA owner name2 w2 = (inr a2, w2, []) →
        (a1 = a2 ↔ Buffer_from name1 = Buffer_from name2)
        ∧ (wellFormed name1 = true → wellFormed name2 = true →
           (a1 = a2 ↔ name1 = name2)))
     ∧ (∀ owner1 owner2 name1 name2 w1 w2 a,
          List.length (toBuffer owner1) = List.length (toBuffer owner2) →
          getFileRecordPDA owner1 name1 w1 = (inr a, w1, []) →
          getFileRecordPDA owner2 name2 w2 = (inr a, w2, []) →
          toBuffer owner1 = toBuffer owner2 ∧ Buffer_from name1 = Buffer_from name2)
     ∧ (∀ file1 file2 grantee1 grantee2 w1 w2 a,
          List.length (toBuffer file1) = List.length (toBuffer file2) →
          getSharedAccessPDA file1 grantee1 w1 = (inr a, w1, []) →
          getSharedAccessPDA file2 grantee2 w2 = (inr a, w2, []) →
          toBuffer file1 = toBuffer file2 ∧ toBuffer grantee1 = toBuffer grantee2)
     ∧ (∀ owner name fileRecordPDA grantee w1 w2 a1 a2,
          getFileRecordPDA owner name w1 = (inr a1, w1, []) →
          getSharedAccessPDA fileRecordPDA grantee w2 = (inr a2, w2, []) →
          a1 ≠ a2)).
Proof.
  split; [| split; [| split; [| split]]].
  - reflexivity.
  - reflexivity.
  - intros owner name1 name2 w Henc. unfold getFileRecordPDA. by rewrite Henc.
  - intros owner name1 name2 Hwf1 Hwf2 Hne Hcat. rewrite !concat3 in Hcat.
    do 2 apply app_inv_head in Hcat. by apply Hne, Buffer_from_inj.
  - intros Hfree.
    assert (Hsame : ∀ owner name1 name2 w1 w2 a1 a2,
              getFileRecordPDA owner name1 w1 = (inr a1, w1, []) →
              getFileRecordPDA owner name2 w2 = (inr a2, w2, []) →
              (a1 = a2 ↔ Buffer_from name1 = Buffer_from name2)).
    { intros owner name1 name2 w1 w2 a1 a2 H1 H2. split.
      - intros <-.
        apply pda_of_derived in H1 as [bump1 H1]. apply pda_of_derived in H2 as [bump2 H2].
        pose proof (Hfree _ _ _ _ _ H1 H2) as Hcat. rewrite !concat3 in Hcat.
        by do 2 apply app_inv_head in Hcat.
      - intros Henc. unfold getFileRecordPDA in H1, H2. rewrite Henc in H1.
        rewrite pda_of_run in H1, H2. congruence. }
    split; [| split; [| split]].
    + intros owner name1 name2 w1 w2 a1 a2 H1 H2. split; [by eapply Hsame |].
      intros Hwf1 Hwf2. rewrite (Hsame _ _ _ _ _ _ _ H1 H2). split.
      * by apply Buffer_from_inj.
      * by intros ->.
    + intros owner1 owner2 name1 name2 w1 w2 a Hlen H1 H2.
      apply pda_of_derived in H1 as [bump1 H1]. apply pda_of_derived in H2 as [bump2 H2].
      pose proof (Hfree _ _ _ _ _ H1 H2) as Hcat. rewrite !concat3 in Hcat.
      apply app_inv_head in Hcat. by apply app_inj_1 in Hcat.
    + intros file1 file2 grantee1 grantee2 w1 w2 a Hlen H1 H2.
      apply pda_of_derived in H1 as [bump1 H1]. apply pda_of_derived in H2 as [bump2 H2].
      pose proof (Hfree _ _ _ _ _ H1 H2) as Hcat. rewrite !concat3 in Hcat.
      apply app_inv_head in Hcat. by apply app_inj_1 in Hcat.
    + intros owner name file grantee w1 w2 a1 a2 H1 H2 <-.
      apply pda_of_derived in H1 as [bump1 H1]. apply pda_of_derived in H2 as [bump2 H2].
      pose proof (Hfree _ _ _ _ _ H1 H2) as Hcat. rewrite !concat3 in Hcat.
      rewrite file_seed, shared_access_seed in Hcat. discriminate Hcat.
Qed.

End Addresses.

(** ** Visibility on the ledger of the specification *)

Section Visibility.
Context `{Web3}.
#[local] Existing Instance SpecLedger.cluster.
Import SpecLedger.

Lemma find_put {A} a (v : A) l : find a (put a v l) = Some v.
Proof.
  induction l as [| [b u] l IH]; simpl.
  - by rewrite decide_True.
  - destruct (decide (a = b)) as [-> | Hne]; simpl.
    + by rewrite decide_True.
    + by rewrite decide_False.
Qed.

Lemma put_put {A} a (v v' : A) l : put a v' (put a v l) = put a v' l.
Proof.
  induction l as [| [b u] l IH]; simpl.
  - by rewrite decide_True.
  - destruct (decide (a = b)) as [-> | Hne]; simpl.
    + by rewrite decide_True.
    + rewrite decide_False by done. by rewrite IH.
Qed.

(** One visibility request for a record the signer owns. *)
Lemma set_visibility_run program wallet p owner name pda bump f (b : bool) (l : Ledger) :
  program = Some p → wallet_publicKey wallet = Some owner →
  findProgramAddressSync [Buffer_from (lit "file"); toBuffer owner; Buffer_from name]
    PROGRAM_ID = inr (pda, bump) →
  find pda (fileRecords l) = Some f → fa_owner f = owner →
  (if b then makePublic program wallet name l else makePrivate program wallet name l)
  = (inr (lit "signature-" ++ [confirmed l]),
     {| clock := clock l; bookkeeping := bookkeeping l;
        fileRecords := put pda (withPublic b f) (fileRecords l);
        grants := grants l; confirmed := confirmed l + 1 |},
     [Rpc {| instruction := if b then ix_makePublic else ix_makePrivate;
             accounts := [("fileRecord", pda); ("owner", owner)] |}]).
Proof.
  intros Hp Hu Hpda Hfind Howner.
  assert (∀ ix, ownedFile owner {| instruction := ix;
                                   accounts := [("fileRecord", pda); ("owner", owner)] |} l
                = inr (pda, f)) as Howned.
  { intros ix. unfold ownedFile. simpl.
    rewrite Hfind, decide_True by done. reflexivity. }
  destruct b; unfold makePublic, makePrivate;
    rewrite (connected_yes _ _ _ _ Hp Hu), bind_ret;
    unfold getFileRecordPDA, pda_of; rewrite Hpda;
    unfold mbind, M_bind, bind, lift, send, request; simpl;
    unfold execute; simpl; rewrite Howned; reflexivity.
Qed.

(** C5, on the ledger of the specification.  For a file record the caller
    owns, [makePublic] called a second time after the first has been
    confirmed resolves again with a signature; the record is public after the
    first call and after the second, and the second call leaves every record
    of the ledger as the first left it (the count of confirmed transactions
    goes up by one).  The same holds of [makePrivate], with the record
    private. *)
Theorem visibility_calls_are_idempotent program wallet p owner name pda bump f
    (b : bool) (l : Ledger) :
  program = Some p → wallet_publicKey wallet = Some owner →
  findProgramAddressSync [Buffer_from (lit "file"); toBuffer owner; Buffer_from name]
    PROGRAM_ID = inr (pda, bump) →
  find pda (fileRecords l) = Some f → fa_owner f = owner →
  let call : M jsstring := if b then makePublic program wallet name
                           else makePrivate program wallet name in
  ∃ sig1 l1 fx1 sig2 l2 fx2,
    call l = (inr sig1, l1, fx1)
    ∧ call l1 = (inr sig2, l2, fx2)
    ∧ isPublic <$> find pda (fileRecords l1) = Some b
    ∧ isPublic <$> find pda (fileRecords l2) = Some b
    ∧ fileRecords l2 = fileRecords l1
    ∧ grants l2 = grants l1
    ∧ bookkeeping l2 = bookkeeping l1
    ∧ confirmed l2 = confirmed l1 + 1.
Proof.
  intros Hp Hu Hpda Hfind Howner call.
  pose proof (set_visibility_run program wallet p owner name pda bump f b l
                Hp Hu Hpda Hfind Howner) as Hfirst.
  set (l1 := {| clock := clock l; bookkeeping := bookkeeping l;
                fileRecords := put pda (withPublic b f) (fileRecords l);
                grants := grants l; confirmed := confirmed l + 1 |}) in *.
  assert (find pda (fileRecords l1) = Some (withPublic b f)) as Hfind1
    by apply find_put.
  pose proof (set_visibility_run program wallet p owner name pda bump
                (withPublic b f) b l1 Hp Hu Hpda Hfind1 Howner) as Hsecond.
  assert (call l = (inr (lit "signature-" ++ [confirmed l]), l1,
                    [Rpc {| instruction := if b then ix_makePublic else ix_makePrivate;
                            accounts := [("fileRecord", pda); ("owner", owner)] |}]))
    as Hcall1 by (subst call; destruct b; exact Hfirst).
  assert (call l1 = (inr (lit "signature-" ++ [confirmed l1]),
                     {| clock := clock l1; bookkeeping := bookkeeping l1;
                        fileRecords := put pda (withPublic b (withPublic b f))
                                           (fileRecords l1);
                        grants := grants l1; confirmed := confirmed l1 + 1 |},
                     [Rpc {| instruction := if b then ix_makePublic else ix_makePrivate;
                             accounts := [("fileRecord", pda); ("owner", owner)] |}]))
    as Hcall2 by (subst call; destruct b; exact Hsecond).
  eexists _, _, _, _, _, _. split; [exact Hcall1 |]. split; [exact Hcall2 |].
  simpl. rewrite put_put, !find_put. repeat split.
Qed.

End Visibility.

(** ** Keys, buttons and texts of the shared-files view *)

Section SharedFilesPage.
Context `{Cluster}.

(** A list is cut at its first occurrence of [x] in one way only. *)
Lemma first_occurrence {A} (x : A) (a b c d : list A) :
  x ∉ a → x ∉ b → a ++ x :: c = b ++ x :: d → a = b ∧ c = d.
Proof.
  revert b. induction a as [| y a IH]; intros [| z b] Ha Hb Heq; simpl in Heq.
  - by injection Heq as ->.
  - injection Heq as <- _. exfalso. apply Hb. by left.
  - injection Heq as -> _. exfalso. apply Ha. by left.
  - injection Heq as -> Heq.
    apply not_elem_of_cons in Ha as [_ Ha]. apply not_elem_of_cons in Hb as [_ Hb].
    by destruct (IH b Ha Hb Heq) as [-> ->].
Qed.

(** The key of a revocation tells the file name and the address apart, as
    long as the address has no hyphen in it (a base-58 text has none): two
    grants have the same key only if they agree in both. *)
Theorem revokeKey_tells_grants_apart (name1 name2 address1 address2 : jsstring) :
  45 ∉ address1 → 45 ∉ address2 →
  SharedFiles.revokeKey name1 address1 = SharedFiles.revokeKey name2 address2 →
  name1 = name2 ∧ address1 = address2.
Proof.
  intros H1 H2 Hkey. unfold SharedFiles.revokeKey in Hkey.
  change (lit "-") with [45] in Hkey. simpl in Hkey.
  apply (f_equal reverse) in Hkey. rewrite !reverse_app, !reverse_cons in Hkey.
  rewrite <- !app_assoc in Hkey. simpl in Hkey.
  apply first_occurrence in Hkey as [Ha Hn].
  - split; [by apply (inj reverse) | by apply (inj reverse)].
  - by rewrite elem_of_reverse.
  - by rewrite elem_of_reverse.
Qed.

Lemma renderedKeyText_sharedWithText k :
  SharedFiles.renderedKeyText k = SharedFiles.sharedWithText k.
Proof.
  unfold SharedFiles.renderedKeyText, SharedFiles.sharedWithText.
  by destruct (toBase58 k).
Qed.

(** The revoke buttons on the page agree with the handler behind them.  A
    button is drawn only for an entry of the list the user shared that has
    its file metadata (and only with a wallet, once the view has loaded).  Pressing a button that is drawn enabled starts the
    revocation: the key joins the set and [revokeAccess] is called with the
    file name and the address of the entry.  Pressing one that is drawn
    disabled does nothing. *)
Theorem revoke_buttons_agree_with_handler walletKey (st : SharedFiles.State) :
  (∀ entry disabled,
     (entry, Some disabled) ∈ SharedFiles.drawn walletKey st →
     entry ∈ SharedFiles.iShared st ∧ ∃ f, file entry = Some f)
  ∧ (∀ entry,
       (entry, Some false) ∈ SharedFiles.drawn walletKey st →
       ∃ f, file entry = Some f
         ∧ let address :=
             SharedFiles.sharedWithText (sharedWith (account (sharedAccess entry))) in
           let key := SharedFiles.revokeKey (fileName (account f)) address in
           SharedFiles.handleRevoke_start entry st
           = (SharedFiles.setRevokingKeys (λ prev, prev ∪ {[key]}) st,
              [Toast toast_info "Revoking access..." no_description None;
               Call (call_revokeAccess (fileName (account f)) address)],
              Some key))
  ∧ (∀ entry,
       (entry, Some true) ∈ SharedFiles.drawn walletKey st →
       SharedFiles.handleRevoke_start entry st = (st, [], None)).
Proof.
  assert (∀ entry d, (entry, Some d) ∈ SharedFiles.drawn walletKey st →
            entry ∈ SharedFiles.iShared st
            ∧ SharedFiles.revokeButton true entry st = Some d) as Hdrawn.
  { intros entry d Hin. unfold SharedFiles.drawn in Hin.
    destruct walletKey; [| by apply elem_of_nil in Hin].
    destruct (SharedFiles.loading st); [by apply elem_of_nil in Hin |].
    apply elem_of_app in Hin as [Hin | Hin];
      apply list_elem_of_fmap in Hin as (e & Heq & He); by simplify_eq. }
  repeat apply conj.
  - intros entry d Hin. destruct (Hdrawn _ _ Hin) as [He Hb]. split; [done |].
    unfold SharedFiles.revokeButton in Hb. destruct (file entry); [by eexists | done].
  - intros entry Hin. destruct (Hdrawn _ _ Hin) as [_ Hb].
    unfold SharedFiles.revokeButton in Hb.
    destruct (file entry) as [f |] eqn:Hfile; [| done].
    exists f. split; [done |]. simpl.
    rewrite renderedKeyText_sharedWithText in Hb.
    unfold SharedFiles.handleRevoke_start. rewrite Hfile.
    case_decide as Hkey; [by simplify_eq | done].
  - intros entry Hin. destruct (Hdrawn _ _ Hin) as [_ Hb].
    unfold SharedFiles.revokeButton in Hb.
    destruct (file entry) as [f |] eqn:Hfile; [| done].
    rewrite renderedKeyText_sharedWithText in Hb.
    unfold SharedFiles.handleRevoke_start. rewrite Hfile.
    case_decide as Hkey; [done | by simplify_eq].
Qed.

End SharedFilesPage.


(** ** Requests of the hook, and the accounts they name *)

(** Run a request of the hook on the answers of the node: [Hrun] is the
    equation of the run, [Hu] the key of the wallet, [Hpda] the derivation
    of the file record address. *)
Ltac unfold_request Hrun Hu :=
  unfold createFile, createUserProfile, registerStorage, finalizeFile, makePublic,
    makePrivate, grantAccess, revokeAccess, getFileSharedAccess, connected,
    timestampNow, getFileRecordPDA, getConfigPDA, getUserProfilePDA,
    getSharedAccessPDA, pda_of, if_absent, send, promise_all2, try_catch, request,
    console, lift, throw, mbind, M_bind, bind, mret, M_ret, ret in Hrun;
  rewrite ?Hu in Hrun.

(** The seed texts are kept as they are while a run is simplified. *)
Ltac hide_seeds :=
  let s1 := fresh "s" in let E1 := fresh "E" in
  remember (lit "file") as s1 eqn:E1 in *; clear E1;
  let s2 := fresh "s" in let E2 := fresh "E" in
  remember (lit "config") as s2 eqn:E2 in *; clear E2;
  let s3 := fresh "s" in let E3 := fresh "E" in
  remember (lit "user_profile") as s3 eqn:E3 in *; clear E3;
  let s4 := fresh "s" in let E4 := fresh "E" in
  remember (lit "shared_access") as s4 eqn:E4 in *; clear E4.

Ltac open_request Hrun Hu := unfold_request Hrun Hu; hide_seeds; simpl in Hrun.

Ltac split_request Hrun Hpda :=
  rewrite ?Hpda in Hrun;
  repeat (case_match; simplify_eq; try (simpl in Hrun; rewrite ?Hpda in Hrun));
  simplify_eq.

Ltac run_request Hrun Hu Hpda := open_request Hrun Hu; split_request Hrun Hpda.

Ltac sent_one Hin :=
  simpl in Hin; rewrite ?elem_of_cons, ?elem_of_nil in Hin;
  repeat (destruct Hin as [Hin | Hin]); try done; subst; try done.

Section Requests.
Context `{Cluster}.
Implicit Types (program : option Program) (wallet : Wallet) (w : World).

(** [createFile] creates the bookkeeping records lazily and in order.  It
    reads the configuration and the profile address first; if one of the
    reads fails nothing is sent.  Where the configuration read found no
    account, [initialize] is the first request sent, and a rejection of it
    ends the call.  Where the profile read found none, [createUserProfile]
    is called, which looks again and sends its request unless the profile
    has appeared.  When these steps have resolved, [createFile] is sent,
    stamped with the clock in whole seconds, and its answer is the outcome
    of the call.  So on a ledger without bookkeeping records the requests
    are the three in this order, with both records in place [createFile]
    alone; and in no case is anything sent but a part of the three, in this
    order. *)
Theorem createFile_creates_bookkeeping_lazily
    program wallet p owner fileName fileSize fileHash chunkCount
    filePDA configPDA profilePDA bump1 bump2 bump3 w rc w1 rp w2 r w' fx :
  program = Some p → wallet_publicKey wallet = Some owner →
  findProgramAddressSync [Buffer_from (lit "file"); toBuffer owner; Buffer_from fileName]
    PROGRAM_ID = inr (filePDA, bump1) →
  findProgramAddressSync [Buffer_from (lit "config")] PROGRAM_ID = inr (configPDA, bump2) →
  findProgramAddressSync [Buffer_from (lit "user_profile"); toBuffer owner] PROGRAM_ID
    = inr (profilePDA, bump3) →
  getAccountInfo configPDA w = (rc, w1) →
  getAccountInfo profilePDA w1 = (rp, w2) →
  createFile program wallet fileName fileSize fileHash chunkCount w = (r, w', fx) →
  let initTx :=
    {| instruction := initialize;
       accounts := [("config", configPDA); ("authority", owner);
                    ("systemProgram", SystemProgram_programId)] |} in
  let profileTx :=
    {| instruction := ix_createUserProfile;
       accounts := [("userProfile", profilePDA); ("user", owner);
                    ("systemProgram", SystemProgram_programId)] |} in
  let fileTx :=
    {| instruction :=
         ix_createFile fileName fileSize fileHash chunkCount (Date_now w / 1000)%Z;
       accounts := [("fileRecord", filePDA); ("config", configPDA);
                    ("userProfile", profilePDA); ("owner", owner);
                    ("systemProgram", SystemProgram_programId)] |} in
  sublist (sentTxs fx) [initTx; profileTx; fileTx]
  ∧ (initTx ∈ sentTxs fx → rc = inr None)
  ∧ (profileTx ∈ sentTxs fx → rp = inr None)
  ∧ (∀ sig, r = inr sig → last (sentTxs fx) = Some fileTx)
  ∧ ((∃ e, rc = inl e) ∨ (∃ e, rp = inl e) → sentTxs fx = [] ∧ ∃ e, r = inl e)
  (* the configuration is missing: [initialize] goes first *)
  ∧ (∀ info ri w3,
       rc = inr None → rp = inr info → rpc owner initTx w2 = (ri, w3) →
       head (sentTxs fx) = Some initTx
       ∧ ∀ e, ri = inl e → sentTxs fx = [initTx] ∧ r = inl e ∧ w' = w3)
  (* both records are missing *)
  ∧ (∀ sig1 w3 w4 sig2 w5,
       rc = inr None → rp = inr None →
       rpc owner initTx w2 = (inr sig1, w3) →
       getAccountInfo profilePDA w3 = (inr None, w4) →
       rpc owner profileTx w4 = (inr sig2, w5) →
       sentTxs fx = [initTx; profileTx; fileTx] ∧ rpc owner fileTx w5 = (r, w'))
  (* only the profile is missing *)
  ∧ (∀ info w3 sig2 w4,
       rc = inr (Some info) → rp = inr None →
       getAccountInfo profilePDA w2 = (inr None, w3) →
       rpc owner profileTx w3 = (inr sig2, w4) →
       sentTxs fx = [profileTx; fileTx] ∧ rpc owner fileTx w4 = (r, w'))
  (* the profile was missing and has appeared by the second look *)
  ∧ (∀ info info' w3,
       rc = inr (Some info) → rp = inr None →
       getAccountInfo profilePDA w2 = (inr (Some info'), w3) →
       sentTxs fx = [fileTx] ∧ rpc owner fileTx w3 = (r, w'))
  (* only the configuration is missing *)
  ∧ (∀ info sig1 w3,
       rc = inr None → rp = inr (Some info) →
       rpc owner initTx w2 = (inr sig1, w3) →
       sentTxs fx = [initTx; fileTx] ∧ rpc owner fileTx w3 = (r, w'))
  (* both records are there *)
  ∧ (∀ info1 info2,
       rc = inr (Some info1) → rp = inr (Some info2) →
       sentTxs fx = [fileTx] ∧ rpc owner fileTx w2 = (r, w')).
Proof.
  intros Hp Hu Hfile Hconfig Hprofile Hrc Hrp Hrun initTx profileTx fileTx.
  unfold createFile in Hrun.
  rewrite (connected_yes _ _ _ _ Hp Hu), bind_ret in Hrun.
  unfold createUserProfile in Hrun.
  rewrite (connected_yes _ _ _ _ Hp Hu) in Hrun.
  unfold timestampNow, getFileRecordPDA, getConfigPDA, getUserProfilePDA, pda_of,
    if_absent, send, promise_all2, request, lift in Hrun.
  unfold mbind, M_bind, bind, mret, M_ret, ret in Hrun.
  remember (lit "file") as s1 eqn:E1. remember (lit "config") as s2 eqn:E2.
  remember (lit "user_profile") as s3 eqn:E3. clear E1 E2 E3.
  simpl in Hrun. rewrite Hfile, Hconfig, Hprofile in Hrun.
  rewrite Hrc, Hrp in Hrun. clear Hrc Hrp.
  destruct rc as [ec | [infoc |]], rp as [ep | [infop |]]; simpl in Hrun;
    rewrite ?Hprofile in Hrun;
    repeat (case_match; simplify_eq; try (simpl in Hrun; rewrite ?Hprofile in Hrun));
    simplify_eq; simpl.
  all: split; [eauto 10 using sublist |].
  all: rewrite ?elem_of_cons, ?elem_of_nil.
  all: split; [intros Hin; try reflexivity; exfalso;
               repeat (destruct Hin as [Hin | Hin]; [discriminate Hin |]); done |].
  all: split; [intros Hin; try reflexivity; exfalso;
               repeat (destruct Hin as [Hin | Hin]; [discriminate Hin |]); done |].
  all: split; [intros sig Hr; first [discriminate Hr | reflexivity] |].
  all: split;
    [intros [[e He] | [e He]]; try discriminate He; (split; [reflexivity | eauto]) |].
  all: subst initTx profileTx fileTx.
  all: repeat match goal with |- _ ∧ _ => split end.
  all: intros; simplify_eq.
  all: repeat match goal with
              | H1 : ?f = (_, _), H2 : ?f = (_, _) |- _ =>
                rewrite H1 in H2; simplify_eq
              end.
  all: repeat match goal with |- _ ∧ _ => split end; try done.
  all: intros; by simplify_eq.
Qed.

(** Every request of the hook that acts on a file record names two accounts
    alike: [fileRecord] is the address derived from the key of the connected
    wallet and the file name, and [owner] is that key.  This holds for what
    [createFile], [registerStorage], [finalizeFile], [makePublic],
    [makePrivate], [grantAccess] and [revokeAccess] send, whatever the node
    answers; and [getFileSharedAccess] scans the grants with that address
    at offset 8. *)
Theorem requests_address_the_callers_own_record
    program wallet owner fileName filePDA bump :
  wallet_publicKey wallet = Some owner →
  findProgramAddressSync [Buffer_from (lit "file"); toBuffer owner; Buffer_from fileName]
    PROGRAM_ID = inr (filePDA, bump) →
  let own (m : M jsstring) :=
    ∀ w r w' fx tx, m w = (r, w', fx) → tx ∈ sentTxs fx →
      onFileRecord (instruction tx) = true →
      accountNamed "fileRecord" (accounts tx) = Some filePDA
      ∧ accountNamed "owner" (accounts tx) = Some owner in
  (∀ fileSize fileHash chunkCount,
     own (createFile program wallet fileName fileSize fileHash chunkCount))
  ∧ (∀ ipfsCid merkleRoot, own (registerStorage program wallet fileName ipfsCid merkleRoot))
  ∧ own (finalizeFile program wallet fileName)
  ∧ own (makePublic program wallet fileName)
  ∧ own (makePrivate program wallet fileName)
  ∧ (∀ sharedWithAddress accessLevel expiresAt,
       own (grantAccess program wallet fileName sharedWithAddress accessLevel expiresAt))
  ∧ (∀ sharedWithAddress, own (revokeAccess program wallet fileName sharedWithAddress))
  ∧ (∀ w r w' fx filter,
       getFileSharedAccess program wallet fileName w = (r, w', fx) →
       filter ∈ grantScans fx →
       filter = {| offset := 8; bytes := toBase58 filePDA |}).
Proof.
  intros Hu Hpda own. unfold own. clear own.
  destruct program as [p |]; repeat match goal with |- _ ∧ _ => split end; intros.
  all: match goal with
       | Hrun : _ = (_, _, _), Hin : _ ∈ _ |- _ =>
         run_request Hrun Hu Hpda; sent_one Hin
       end.
Qed.

Lemma expiresAtBN_Some expiresAt t :
  expiresAtBN expiresAt = Some t → t ≠ 0%Z ∧ expiresAt = Some t.
Proof.
  destruct expiresAt as [t' |]; [| done]. simpl.
  destruct (Z.eqb_spec t' 0); [done |]. by intros [= <-].
Qed.

(** [revokeAccess] addresses the account [grantAccess] writes.  Called with
    the same file name and the same address text, the two send a request
    under the same conditions (which depend on the wallet and the two
    derivations only, not on the node), each at most one; when they do, the
    requests name the same [sharedAccess] and [fileRecord] accounts, the
    grant carries the key parsed from the text, the access level and the
    expiry, an expiry of 0 being sent as none.  An address text that is no
    public key makes both reject before anything is sent. *)
Theorem revokeAccess_addresses_the_granted_account
    program wallet fileName sharedWithAddress accessLevel expiresAt
    wg rg wg' fxg wr rr wr' fxr :
  grantAccess program wallet fileName sharedWithAddress accessLevel expiresAt wg
    = (rg, wg', fxg) →
  revokeAccess program wallet fileName sharedWithAddress wr = (rr, wr', fxr) →
  (sentTxs fxg = [] ↔ sentTxs fxr = [])
  ∧ (List.length (sentTxs fxg) ≤ 1)%nat
  ∧ (List.length (sentTxs fxr) ≤ 1)%nat
  ∧ (∀ tg tr, tg ∈ sentTxs fxg → tr ∈ sentTxs fxr →
       ∃ grantee account,
         newPublicKey sharedWithAddress = inr grantee
         ∧ instruction tg = ix_grantAccess grantee accessLevel (expiresAtBN expiresAt)
         ∧ instruction tr = ix_revokeAccess
         ∧ accountNamed "sharedAccess" (accounts tg) = Some account
         ∧ accountNamed "sharedAccess" (accounts tr) = Some account
         ∧ accountNamed "fileRecord" (accounts tg)
           = accountNamed "fileRecord" (accounts tr)
         ∧ (∀ t, expiresAtBN expiresAt = Some t → t ≠ 0%Z ∧ expiresAt = Some t))
  ∧ (∀ e, newPublicKey sharedWithAddress = inl e →
       fxg = [] ∧ fxr = [] ∧ wg' = wg ∧ wr' = wr ∧ ∃ e', rg = inl e' ∧ rr = inl e').
Proof.
  intros Hg Hr.
  destruct program as [p |], (wallet_publicKey wallet) as [owner |] eqn:Hu.
  all: unfold_request Hg Hu; unfold_request Hr Hu; hide_seeds; simpl in Hg, Hr.
  all: repeat (case_match; simplify_eq; try simpl in Hg; try simpl in Hr).
  all: simplify_eq; simpl.
  all: repeat match goal with |- _ ∧ _ => split end; try done; try lia.
  all: try by (intros e He; simplify_eq; repeat split; eauto).
  all: intros tg tr Htg Htr; sent_one Htg; sent_one Htr.
  all: eexists _, _; repeat (split; [reflexivity |]); apply expiresAtBN_Some.
Qed.

End Requests.

(** ** What the handlers send, and what they tell the user *)

(** The effects a handler has shown, one by one. *)
Ltac told Hin :=
  rewrite ?elem_of_app, ?elem_of_cons, ?elem_of_nil in Hin;
  repeat (destruct Hin as [Hin | Hin]; try discriminate Hin); try done.

Section HandlerRuns.
Context `{Cluster}.
Implicit Types (program : option Program) (wallet : Wallet) (w : World).

Lemma makePublic_one program wallet fileName :
  OneRequest wallet ix_makePublic (makePublic program wallet fileName).
Proof.
  intros w outcome w1 sent Hrun.
  destruct program as [p |], (wallet_publicKey wallet) as [owner |] eqn:Hu.
  all: run_request Hrun Hu Hu; eauto 10.
Qed.

Lemma makePrivate_one program wallet fileName :
  OneRequest wallet ix_makePrivate (makePrivate program wallet fileName).
Proof.
  intros w outcome w1 sent Hrun.
  destruct program as [p |], (wallet_publicKey wallet) as [owner |] eqn:Hu.
  all: run_request Hrun Hu Hu; eauto 10.
Qed.

Lemma revokeAccess_one program wallet fileName address :
  OneRequest wallet ix_revokeAccess (revokeAccess program wallet fileName address).
Proof.
  intros w outcome w1 sent Hrun.
  destruct program as [p |], (wallet_publicKey wallet) as [owner |] eqn:Hu.
  all: run_request Hrun Hu Hu; eauto 10.
Qed.

Lemma visibility_call_one program wallet (b : bool) fileName :
  OneRequest wallet (if b then ix_makePublic else ix_makePrivate)
    (if b then makePublic program wallet fileName
     else makePrivate program wallet fileName).
Proof. destruct b; [apply makePublic_one | apply makePrivate_one]. Qed.

(** A success toast stands for a confirmed transaction.  A privacy toggle
    run from start to end sends at most one request, which is [makePublic]
    or [makePrivate] as the dialog asked, and leaves the node alone when it
    sends none; when it shows the toast "Success!", that request was sent,
    the node answered it with a signature, and the toast links that
    signature.  The same holds of the revoke handler, its request
    [revokeAccess] and its toast "Access revoked". *)
Theorem success_toasts_report_confirmed_transactions program wallet :
  (∀ st w st2 fx w2 sent,
     FileList.executePrivacyToggle program wallet st w = (st2, fx, w2, sent) →
     (List.length (sentTxs sent) ≤ 1)%nat
     ∧ (∀ tx, tx ∈ sentTxs sent →
          instruction tx = if FileList.newPrivacy (FileList.confirmDialog st)
                           then ix_makePublic else ix_makePrivate)
     ∧ (sentTxs sent = [] → w2 = w)
     ∧ (∀ title d duration, Toast toast_success title d duration ∈ fx →
          ∃ owner tx sig caption,
            wallet_publicKey wallet = Some owner ∧ sent = [Rpc tx]
            ∧ rpc owner tx w = (inr sig, w2) ∧ d = tx_link caption sig))
  ∧ (∀ entry st w st2 fx w2 sent,
       SharedFiles.handleRevoke program wallet entry st w = (st2, fx, w2, sent) →
       (List.length (sentTxs sent) ≤ 1)%nat
       ∧ (∀ tx, tx ∈ sentTxs sent → instruction tx = ix_revokeAccess)
       ∧ (sentTxs sent = [] → w2 = w)
       ∧ (∀ title d duration, Toast toast_success title d duration ∈ fx →
            ∃ owner tx sig caption,
              wallet_publicKey wallet = Some owner ∧ sent = [Rpc tx]
              ∧ rpc owner tx w = (inr sig, w2) ∧ d = tx_link caption sig)).
Proof.
  split.
  - intros st w st2 fx w2 sent.
    unfold FileList.executePrivacyToggle, FileList.executePrivacyToggle_start.
    destruct (FileList.file (FileList.confirmDialog st)) as [f |].
    + set (b := FileList.newPrivacy (FileList.confirmDialog st)).
      destruct ((if b then makePublic program wallet _ else makePrivate program wallet _) w)
        as [[outcome w1] sent1] eqn:Hcall.
      destruct (visibility_call_one _ _ _ _ _ _ _ _ Hcall)
        as [(-> & -> & e & ->) | (owner & tx & Hu & -> & Hix & Hrpc)];
        [| destruct outcome as [e | sig]]; simpl; intros [= <- <- <- <-].
      all: repeat split; try done; simpl; try lia; try by intros tx' ?%elem_of_nil.
      all: try (intros tx' ->%list_elem_of_singleton; exact Hix).
      all: intros title d duration Hin; try destruct (message_includes _ e).
      all: told Hin; injection Hin as -> -> ->; eauto 10.
    + intros [= <- <- <- <-].
      repeat split; try done; simpl; try lia; try by intros tx' ?%elem_of_nil.
      by intros title d duration ?%elem_of_nil.
  - intros entry st w st2 fx w2 sent.
    unfold SharedFiles.handleRevoke, SharedFiles.handleRevoke_start.
    destruct (file entry) as [f |]; [case_decide as Hkey |].
    + intros [= <- <- <- <-].
      repeat split; try done; simpl; try lia; try by intros tx' ?%elem_of_nil.
      by intros title d duration ?%elem_of_nil.
    + destruct (revokeAccess program wallet _ _ w) as [[outcome w1] sent1] eqn:Hcall.
      destruct (revokeAccess_one _ _ _ _ _ _ _ _ Hcall)
        as [(-> & -> & e & ->) | (owner & tx & Hu & -> & Hix & Hrpc)];
        [| destruct outcome as [e | sig]]; simpl; intros [= <- <- <- <-].
      all: repeat split; try done; simpl; try lia; try by intros tx' ?%elem_of_nil.
      all: try (intros tx' ->%list_elem_of_singleton; exact Hix).
      all: intros title d duration Hin.
      all: told Hin; injection Hin as -> -> ->; eauto 10.
    + intros [= <- <- <- <-].
      repeat split; try done; simpl; try lia; try by intros tx' ?%elem_of_nil.
      intros title d duration Hin. told Hin.
Qed.

(** Without a connected wallet the handlers fail in the open.  A confirmed
    privacy toggle shows the toast "Transaction Failed" with the text
    "Wallet not connected" (not the fallback text, and not the toast for a
    repeated transaction), sets no timer, sends nothing and takes the file
    out of the processing set again; a revoke shows "Failed to revoke" with
    the same text and gives its key back. *)
Theorem handlers_report_a_missing_wallet program wallet :
  program = None ∨ wallet_publicKey wallet = None →
  (∀ st f w,
     FileList.file (FileList.confirmDialog st) = Some f →
     FileList.executePrivacyToggle program wallet st w
     = (FileList.setProcessingFiles (λ prev, prev ∖ {[FileList.reference (FileList.publicKey f)]})
          (FileList.setProcessingFiles (λ prev, prev ∪ {[FileList.reference (FileList.publicKey f)]})
             (FileList.setConfirmDialog FileList.closedDialog st)),
        [Toast toast_info "Updating privacy..."
           (text (lit "Processing blockchain transaction")) None;
         Call (if FileList.newPrivacy (FileList.confirmDialog st)
               then call_makePublic (fileName (FileList.account f))
               else call_makePrivate (fileName (FileList.account f)));
         Console_error "Privacy toggle error:" (newError "Wallet not connected");
         Toast toast_error "Transaction Failed" (text (lit "Wallet not connected"))
           (Some 5000)],
        w, []))
  ∧ (∀ entry f st w,
       file entry = Some f →
       let fileName := fileName (account f) in
       let address :=
         SharedFiles.sharedWithText (sharedWith (account (sharedAccess entry))) in
       let key := SharedFiles.revokeKey fileName address in
       key ∉ SharedFiles.revokingKeys st →
       SharedFiles.handleRevoke program wallet entry st w
       = (SharedFiles.setRevokingKeys (λ prev, prev ∖ {[key]})
            (SharedFiles.setRevokingKeys (λ prev, prev ∪ {[key]}) st),
          [Toast toast_info "Revoking access..." no_description None;
           Call (call_revokeAccess fileName address);
           Console_error "Revoke error:" (newError "Wallet not connected");
           Toast toast_error "Failed to revoke" (text (lit "Wallet not connected")) None],
          w, [])).
Proof.
  intros Hnc. pose proof (connected_not _ _ Hnc) as Hc. split.
  - intros st f w Hfile.
    unfold FileList.executePrivacyToggle, FileList.executePrivacyToggle_start.
    rewrite Hfile.
    assert (Hcall : ∀ b : bool,
              (if b then makePublic program wallet (fileName (FileList.account f))
               else makePrivate program wallet (fileName (FileList.account f))) w
              = (inl (newError "Wallet not connected"), w, [])).
    { intros [|]; unfold makePublic, makePrivate; rewrite Hc; apply bind_throw. }
    rewrite Hcall. reflexivity.
  - intros entry f st w Hfile fileName address key Hkey.
    unfold SharedFiles.handleRevoke, SharedFiles.handleRevoke_start.
    rewrite Hfile. fold fileName address key.
    case_decide; [done |].
    unfold revokeAccess. rewrite Hc, bind_throw. reflexivity.
Qed.

End HandlerRuns.

(** ** The pending sets empty out *)

Section FileListDrains.
Context `{Web3}.
Import FileList.

Lemma run_app es1 es2 c :
  run (es1 ++ es2) c = c1 ← run es1 c; run es2 c1.
Proof.
  revert c. induction es1 as [| e es1 IH]; intros c; simpl; [done |].
  destruct (step e c); simpl; [apply IH | done].
Qed.

Lemma settle_all outcomes : ∀ c,
  List.length outcomes = List.length (awaiting c) →
  ∃ c', run (map (settled 0) outcomes) c = Some c'
        ∧ awaiting c' = []
        ∧ (List.length (timers c') ≤ List.length (timers c) + List.length outcomes)%nat.
Proof.
  induction outcomes as [| outcome outcomes IH]; intros c Hlen; simpl in *.
  - exists c. destruct (awaiting c); [repeat split; lia | done].
  - destruct c as [st aw tm calls]. simpl in *.
    destruct aw as [| [f b] aw]; [done |]. simpl in *.
    destruct (executePrivacyToggle_settle f b outcome st) as [st1 fx] eqn:Hsettle.
    destruct (IH (after {| state := st; awaiting := (f, b) :: aw; timers := tm;
                           issued := calls |} st1 fx aw tm)) as (c' & Hrun & Haw & Htm).
    { simpl. lia. }
    exists c'. repeat split; try done.
    etrans; [exact Htm |]. simpl. rewrite length_app.
    assert (List.length (timersOf fx) ≤ 1)%nat; [| lia].
    destruct outcome as [e |]; simpl in Hsettle; simplify_eq; simpl; [| lia].
    destruct (message_includes "AlreadyProcessed" e); simpl; lia.
Qed.

Lemma fire_all walletKey n : ∀ c,
  List.length (timers c) = n →
  ∃ c', run (replicate n (fired 0 walletKey)) c = Some c'
        ∧ awaiting c' = awaiting c ∧ timers c' = [].
Proof.
  induction n as [| n IH]; intros c Hlen; simpl.
  - exists c. destruct (timers c); [done | done].
  - destruct c as [st aw tm calls]. simpl in *.
    destruct tm as [| cb tm]; [done |]. simpl in *.
    destruct (runCallback walletKey cb st) as [[st1 fx] waiting] eqn:Hcb.
    assert (Hfx : timersOf fx = []).
    { destruct cb, walletKey; simpl in Hcb; by simplify_eq. }
    destruct (IH (after {| state := st; awaiting := aw; timers := cb :: tm;
                           issued := calls |} st1 fx aw tm)) as (c' & Hrun & Haw & Htm).
    { simpl. rewrite Hfx, app_nil_r. lia. }
    by exists c'.
Qed.

(** Every file leaves the processing set.  From any configuration the file
    list can reach, let each transaction in flight settle, with whatever
    outcome, and then let the timers fire: the run is possible, it takes at
    most one timer per transaction on top of those already set, and at its
    end no call is waiting, no timer is left and the processing set is
    empty. *)
Theorem processing_set_empties es c outcomes walletKey :
  run es initial = Some c →
  List.length outcomes = List.length (awaiting c) →
  ∃ n c',
    run (map (settled 0) outcomes ++ replicate n (fired 0 walletKey)) c = Some c'
    ∧ (n ≤ List.length (timers c) + List.length outcomes)%nat
    ∧ awaiting c' = [] ∧ timers c' = []
    ∧ processingFiles (state c') = ∅.
Proof.
  intros Hreach Hlen.
  destruct (settle_all outcomes c Hlen) as (c1 & Hrun1 & Haw1 & Htm1).
  destruct (fire_all walletKey _ c1 eq_refl) as (c2 & Hrun2 & Haw2 & Htm2).
  exists (List.length (timers c1)), c2.
  assert (Hrun : run (map (settled 0) outcomes
                      ++ replicate (List.length (timers c1)) (fired 0 walletKey)) c
                 = Some c2).
  { rewrite run_app, Hrun1. exact Hrun2. }
  repeat split; try done; [congruence |].
  assert (Hinv : Invariant c2).
  { eapply run_invariant; [| exact Hrun].
    eapply run_invariant; [apply initial_invariant | exact Hreach]. }
  destruct Hinv as (_ & Hset & _).
  apply set_eq. intros k. rewrite Hset. unfold busy. rewrite Haw2, Haw1, Htm2. simpl.
  rewrite elem_of_nil, elem_of_empty. done.
Qed.

End FileListDrains.

Section SharedFilesDrains.
Context `{Cluster}.
Import SharedFiles.

Lemma revocations_settle outcomes : ∀ c,
  List.length outcomes = List.length (awaiting c) →
  ∃ c', run (map (settled 0) outcomes) c = Some c' ∧ awaiting c' = [].
Proof.
  induction outcomes as [| outcome outcomes IH]; intros c Hlen; simpl in *.
  - exists c. destruct (awaiting c); [done | done].
  - destruct c as [st aw tm calls]. simpl in *.
    destruct aw as [| key aw]; [done |]. simpl in *.
    apply IH. simpl. lia.
Qed.

(** Every key leaves the set of keys being revoked.  From any configuration
    the shared-files view can reach, let each [revokeAccess] in flight
    settle, with whatever outcome: the run is possible, and at its end no
    handler is waiting and the set of keys being revoked is empty, so that
    every revoke button is enabled again. *)
Theorem revoking_keys_empty_out es c outcomes :
  run es initial = Some c →
  List.length outcomes = List.length (awaiting c) →
  ∃ c',
    run (map (settled 0) outcomes) c = Some c'
    ∧ awaiting c' = []
    ∧ revokingKeys (state c') = ∅
    ∧ ∀ walletKey entry button,
        (entry, Some button) ∈ drawn walletKey (state c') → button = false.
Proof.
  intros Hreach Hlen.
  destruct (revocations_settle outcomes c Hlen) as (c1 & Hrun & Haw).
  assert (Hkeys : revokingKeys (state c1) = ∅).
  { assert (Hinv : SharedFiles.Invariant c1).
    { eapply view_run_invariant; [| exact Hrun].
      eapply view_run_invariant; [apply view_initial_invariant | exact Hreach]. }
    destruct Hinv as (_ & Hset).
    apply set_eq. intros k. rewrite Hset, Haw, elem_of_nil, elem_of_empty. done. }
  exists c1. repeat split; try done.
  intros walletKey entry button Hin. unfold drawn in Hin.
  destruct walletKey; [| by apply elem_of_nil in Hin].
  destruct (loading (state c1)); [by apply elem_of_nil in Hin |].
  rewrite elem_of_app, !list_elem_of_fmap in Hin.
  destruct Hin as [(e & [= -> Hb] & _) | (e & [= -> Hb] & _)].
  unfold revokeButton in Hb. destruct (file e); [| done].
  rewrite Hkeys in Hb. injection Hb as ->.
  apply bool_decide_eq_false. apply not_elem_of_empty.
Qed.

End SharedFilesDrains.

(** ** Loading the lists *)

Section Loading.
Context `{Cluster}.
Implicit Types (program : option Program) (wallet : Wallet) (w : World).

(** [getUserFiles] resolves whatever the node answers: to the answer of the
    scan, or to the empty list. *)
Lemma getUserFiles_resolves program wallet w :
  ∃ l w' fx,
    getUserFiles program wallet w = (inr l, w', fx) ∧ sentTxs fx = []
    ∧ (program = None ∨ wallet_publicKey wallet = None → l = [] ∧ w' = w ∧ fx = [])
    ∧ (∀ p pk answer w1,
         program = Some p → wallet_publicKey wallet = Some pk →
         account_fileRecord p = true →
         fileRecord_all {| offset := 8; bytes := toBase58 pk |} w = (answer, w1) →
         w' = w1 ∧ l = match answer with inr l => l | inl _ => [] end).
Proof.
  unfold getUserFiles.
  destruct program as [p |], (wallet_publicKey wallet) as [pk |];
    try (exists [], w, []; repeat split; try done; intros; by destruct_or?).
  assert (Hconn : ¬ (Some p = None ∨ Some pk = None)).
  { by intros [|]. }
  unfold try_catch, request, console, mbind, M_bind, bind.
  destruct (account_fileRecord p) eqn:Hns.
  - destruct (fileRecord_all _ w) as [[e | l] w1] eqn:Hscan.
    + destruct (message_includes "rate limited" e); eexists [], w1, _.
      all: split; [reflexivity |]; split; [reflexivity |]; split; [by intros ?%Hconn |].
      all: intros p' pk' answer w1' [= <-] [= <-] _ Hscan'.
      all: rewrite Hscan in Hscan'; by injection Hscan' as <- <-.
    + exists l, w1, [AllFileRecord {| offset := 8; bytes := toBase58 pk |}].
      split; [reflexivity |]; split; [reflexivity |]; split; [by intros ?%Hconn |].
      intros p' pk' answer w1' [= <-] [= <-] _ Hscan'.
      rewrite Hscan in Hscan'; by injection Hscan' as <- <-.
  - exists [], w, [].
    split; [reflexivity |]; split; [reflexivity |]; split; [by intros ?%Hconn |].
    intros p' pk' answer w1' [= <-] [= <-] Hns'. congruence.
Qed.

(** A view from the answer of its scan on: it resolves, sends no
    transaction, and lists the active grants of the answer joined with
    their file records, or nothing when the scan threw. *)
Lemma sharedView_rest_run p label answer w :
  ∃ l w' fx,
    sharedView_rest p label answer w = (inr l, w', fx) ∧ sentTxs fx = []
    ∧ match answer with
      | inr accounts =>
        Joined p w (List.filter (λ a, isActive (account a)) accounts) l w'
      | inl _ => l = [] ∧ w' = w
      end.
Proof.
  destruct answer as [e | accounts]; simpl.
  - by eexists [], w, _.
  - destruct (promise_all_map_withFile p
                (List.filter (λ a, isActive (account a)) accounts) w)
      as (l & w' & fx & Hmap & Hjoined & Hsent).
    by exists l, w', fx.
Qed.

(** A view called alone is its scan followed by the rest. *)
Lemma sharedView_from_scan p filter label w :
  account_sharedAccess p = true →
  sharedView p filter label w
  = match sharedAccess_all filter w with
    | (answer, w1) =>
      match sharedView_rest p label answer w1 with
      | (r, w2, fx) => (r, w2, AllSharedAccess filter :: fx)
      end
    end.
Proof.
  intros Hns. unfold sharedView, try_catch, request, mbind, M_bind, bind. rewrite Hns.
  destruct (sharedAccess_all filter w) as [[e | accounts] w1]; [reflexivity |].
  simpl. unfold bind.
  destruct (promise_all_map_withFile p
              (List.filter (λ a, isActive (account a)) accounts) w1)
    as (l & w2 & fx & -> & _). simpl. by rewrite app_nil_r.
Qed.

(** Loading always ends, and the [catch] blocks of the two loaders are never
    entered, because the functions of the hook they call catch every error
    themselves.  [fetchFiles] ends with the loading flag down, has sent no
    transaction, set no timer and logged no error, and has left the
    processing set and the dialog alone; the list it shows is the answer of
    the node as new objects, and the empty list when the node failed or no
    wallet is connected.  [refresh] with a wallet ends with the loading flag
    down; it sends the scans of both views before anything else, and then
    each list is the active grants of its scan joined with their file
    records, the first view's fetches being answered before the second's,
    or empty when its scan threw; without a wallet [refresh] changes
    nothing, the loading flag included. *)
Theorem loaders_always_finish program wallet :
  (∀ fresh st w st2 fx w2 sent,
     FileList.fetchFiles program wallet fresh st w = (st2, fx, w2, sent) →
     FileList.loading st2 = false
     ∧ FileList.processingFiles st2 = FileList.processingFiles st
     ∧ FileList.confirmDialog st2 = FileList.confirmDialog st
     ∧ sentTxs sent = [] ∧ timersOf fx = []
     ∧ (∀ label e, Console_error label e ∉ fx)
     ∧ (program = None ∨ wallet_publicKey wallet = None →
        FileList.files st2 = [] ∧ w2 = w ∧ sent = [])
     ∧ (∀ p pk answer w1,
          program = Some p → wallet_publicKey wallet = Some pk →
          account_fileRecord p = true →
          fileRecord_all {| offset := 8; bytes := toBase58 pk |} w = (answer, w1) →
          w2 = w1
          ∧ FileList.files st2 = match answer with
                                 | inr l => FileList.decode fresh l
                                 | inl _ => []
                                 end))
  ∧ (∀ st w st2 fx w2 sent,
       SharedFiles.refresh program wallet st w = (st2, fx, w2, sent) →
       SharedFiles.revokingKeys st2 = SharedFiles.revokingKeys st
       ∧ sentTxs sent = [] ∧ timersOf fx = []
       ∧ (∀ label e, Console_error label e ∉ fx)
       ∧ (wallet_publicKey wallet = None → st2 = st ∧ fx = [] ∧ w2 = w ∧ sent = [])
       ∧ (∀ pk, wallet_publicKey wallet = Some pk → SharedFiles.loading st2 = false)
       ∧ (∀ p pk answer1 w1 answer2 w2',
            program = Some p → wallet_publicKey wallet = Some pk →
            account_sharedAccess p = true →
            sharedAccess_all {| offset := 72; bytes := toBase58 pk |} w = (answer1, w1) →
            sharedAccess_all {| offset := 40; bytes := toBase58 pk |} w1 = (answer2, w2') →
            take 2 sent = [AllSharedAccess {| offset := 72; bytes := toBase58 pk |};
                           AllSharedAccess {| offset := 40; bytes := toBase58 pk |}]
            ∧ ∃ w3,
                match answer1 with
                | inr accounts =>
                  Joined p w2' (List.filter (λ a, isActive (account a)) accounts)
                    (SharedFiles.withMe st2) w3
                | inl _ => SharedFiles.withMe st2 = [] ∧ w3 = w2'
                end
                ∧ match answer2 with
                  | inr accounts =>
                    Joined p w3 (List.filter (λ a, isActive (account a)) accounts)
                      (SharedFiles.iShared st2) w2
                  | inl _ => SharedFiles.iShared st2 = [] ∧ w2 = w3
                  end)).
Proof.
  split.
  - intros fresh st w st2 fx w2 sent. unfold FileList.fetchFiles.
    destruct (getUserFiles_resolves program wallet w)
      as (l & w' & fx' & Hget & Hsent & Hnone & Hsome).
    destruct (wallet_publicKey wallet) as [pk |] eqn:Hu; simpl.
    + rewrite Hget. simpl. intros [= <- <- <- <-].
      do 5 (split; [done |]). split; [intros label e Hin; told Hin |]. split.
      * intros Hnc. by destruct (Hnone Hnc) as (-> & -> & ->).
      * intros p pk' answer w1 Hp [= <-] Hns Hscan.
        destruct (Hsome _ _ _ _ Hp eq_refl Hns Hscan) as [-> ->].
        split; [done |]. by destruct answer.
    + intros [= <- <- <- <-].
      do 5 (split; [done |]). split; [by intros label e ?%elem_of_nil |]. by split.
  - intros st w st2 fx w2 sent. unfold SharedFiles.refresh, bothSharedViews.
    destruct (wallet_publicKey wallet) as [pk |] eqn:Hu; simpl.
    + destruct program as [p |]; [destruct (account_sharedAccess p) eqn:Hns |].
      * destruct (sharedAccess_all {| offset := 72; bytes := toBase58 pk |} w)
          as [answer1 w1] eqn:Hscan1.
        destruct (sharedAccess_all {| offset := 40; bytes := toBase58 pk |} w1)
          as [answer2 w2'] eqn:Hscan2.
        destruct (sharedView_rest_run p "Error fetching files shared with me:" answer1 w2')
          as (a & w3 & fx1 & -> & Hsent1 & Ha).
        destruct (sharedView_rest_run p "Error fetching files I shared:" answer2 w3)
          as (b & w4 & fx2 & -> & Hsent2 & Hb).
        simpl. intros [= <- <- <- <-].
        split; [done |].
        split; [simpl; by rewrite sentTxs_app, Hsent1, Hsent2 |].
        split; [done |]. split; [intros label e Hin; told Hin |]. split; [done |].
        split; [done |].
        intros p' pk' r1 v1 r2 v2 [= <-] [= <-] _ Hs1 Hs2.
        rewrite Hscan1 in Hs1. injection Hs1 as <- <-.
        rewrite Hscan2 in Hs2. injection Hs2 as <- <-.
        split; [done |]. exists w3. by split.
      * simpl. intros [= <- <- <- <-].
        split; [done |]. split; [done |].
        split; [done |]. split; [intros label e Hin; told Hin |]. split; [done |].
        split; [done |]. intros p' pk' r1 v1 r2 v2 [= <-] _ Hns'. congruence.
      * simpl. intros [= <- <- <- <-].
        split; [done |]. split; [done |].
        split; [done |]. split; [intros label e Hin; told Hin |]. split; [done |].
        split; [done |]. by intros p' pk' r1 v1 r2 v2 [=].
    + intros [= <- <- <- <-].
      do 3 (split; [done |]). split; [by intros label e ?%elem_of_nil |].
      split; [done |]. split; [done |]. by intros p' pk' r1 v1 r2 v2 _ [=].
Qed.

End Loading.

(** ** Downloads and links *)

Section Downloads.
Context `{Web3}.
Import FileList.

(** A download clicks the anchor exactly when the file has a storage
    location, the gateway answered with an ok response and its body could
    be read; the anchor then carries that body under the name of the file,
    and only then is "Download complete!" shown.  The address fetched is
    the gateway address of the storage location, which is also the one
    address [handleShare] copies.  A response that is not ok is reported as
    "Download failed" with the text "Failed to fetch file", and a file
    without storage location is neither fetched nor copied. *)
Theorem download_clicks_after_an_ok_response f answer :
  let fx := handleDownload f answer in
  let cid := primaryStorage (account f) in
  (∀ content name,
     anchor_click content name ∈ fx ↔
     cid ≠ [] ∧ name = fileName (account f)
     ∧ ∃ response, answer = inr response ∧ response_ok response = true
                   ∧ response_blob response = inr content)
  ∧ (∀ title d duration,
       notify (Toast toast_success title d duration) ∈ fx →
       ∃ content, anchor_click content (fileName (account f)) ∈ fx)
  ∧ (∀ url, fetch_url url ∈ fx ↔ cid ≠ [] ∧ url = gatewayUrl cid)
  ∧ (∀ url, clipboard_writeText url ∈ handleShare f ↔ cid ≠ [] ∧ url = gatewayUrl cid)
  ∧ (∀ response,
       cid ≠ [] → answer = inr response → response_ok response = false →
       notify (Toast toast_error "Download failed"
                 (text (lit "Failed to fetch file")) None) ∈ fx).
Proof.
  intros fx cid. subst fx cid. unfold handleDownload, handleShare.
  destruct (primaryStorage (account f)) as [| c cid] eqn:Hcid;
    [| destruct answer as [error | [[|] [error | content]]]]; simpl.
  all: repeat split; intros.
  all: repeat match goal with
              | H : _ ∧ _ |- _ => destruct H
              | H : ∃ _, _ |- _ => destruct H
              | H : _ ∈ _ |- _ => told H
              end.
  all: simplify_eq/=; try done; rewrite ?elem_of_cons, ?elem_of_nil; eauto 10.
  eexists. rewrite !elem_of_cons. eauto.
Qed.

End Downloads.
(** ** The properties at work on the ledgers above *)

Section Runs.
#[local] Existing Instance Symbolic.web3.
#[local] Existing Instance SpecLedger.cluster.
Import Scenario.

Lemma mutations_need_wallet_witness :
  let refused := (inl (newError "Wallet not connected"), ledger, []) in
  makePublic None noWallet (lit "report.pdf") ledger = refused
  ∧ revokeAccess None noWallet (lit "report.pdf") (lit "Bob") ledger = refused.
Proof.
  pose proof (mutations_need_wallet (H0 := SpecLedger.cluster) None noWallet ledger (or_introl eq_refl)) as Hall.
  cbv zeta in Hall. intros refused. split; apply Hall.
Defined.

Lemma createUserProfile_idempotent_witness :
  createUserProfile (Some idl) bobWallet ledgerWithProfile
  = (inr (lit "already-initialized"), ledgerWithProfile, [GetAccountInfo bobProfile]).
Proof.
  apply (proj1 (createUserProfile_idempotent (H0 := SpecLedger.cluster) (Some idl) bobWallet ledgerWithProfile)
           idl bob bobProfile 255 {| lamports := 1; data := [] |} ledgerWithProfile);
    reflexivity.
Defined.

(** From an empty ledger: Alice creates, registers and finalizes the report
    and grants Bob read access, Bob's view has one entry; Alice revokes, and
    Bob's view is empty. *)
Example sharing_end_to_end :
  let shared : M (list SharedEntry * list SharedEntry) :=
    _ ← createFile (Some idl) aliceWallet (lit "report.pdf") 2048 [] 4;
    _ ← registerStorage (Some idl) aliceWallet (lit "report.pdf") (lit "bafy") [];
    _ ← finalizeFile (Some idl) aliceWallet (lit "report.pdf");
    _ ← grantAccess (Some idl) aliceWallet (lit "report.pdf") (lit "Bob") read None;
    before ← getFilesSharedWithMe (Some idl) bobWallet;
    _ ← revokeAccess (Some idl) aliceWallet (lit "report.pdf") (lit "Bob");
    after ← getFilesSharedWithMe (Some idl) bobWallet;
    mret (before, after) in
  ∃ entry w fx,
    shared SpecLedger.empty = (inr ([entry], []), w, fx)
    ∧ accessLevel (account (sharedAccess entry)) = read
    ∧ fileName <$> (account <$> file entry) = Some (lit "report.pdf")
    ∧ status <$> (account <$> file entry) = Some active.
Proof. eexists _, _, _. split; [vm_compute; reflexivity | repeat split]. Qed.

(** Bob creates his profile twice: the second call only reads. *)
Example profile_created_once :
  ∃ sig w1 fx1,
    createUserProfile (Some idl) bobWallet ledger = (inr sig, w1, fx1)
    ∧ sentTxs fx1
      = [{| instruction := ix_createUserProfile;
            accounts := [("userProfile", bobProfile); ("user", bob);
                         ("systemProgram", SystemProgram_programId)] |}]
    ∧ createUserProfile (Some idl) bobWallet w1
      = (inr (lit "already-initialized"), w1, [GetAccountInfo bobProfile]).
Proof. eexists _, _, _. split; [vm_compute; reflexivity | split; reflexivity]. Qed.

(** Bob's view of [ledger]: both grants are listed, the one whose file
    record is gone with [file: null]. *)
Example bob_sees_both_grants :
  getFilesSharedWithMe (Some idl) bobWallet ledger
  = (inr [ {| sharedAccess := {| publicKey := Symbolic.wallet_key (lit "grant-1");
                                 account := reportGrant |};
              file := Some {| publicKey := reportAddress; account := report |} |};
           {| sharedAccess := {| publicKey := Symbolic.wallet_key (lit "grant-2");
                                 account := orphanGrant |};
              file := None |} ],
     ledger,
     [AllSharedAccess {| offset := 72; bytes := lit "Bob" |};
      FetchFileRecord reportAddress;
      FetchFileRecord (Symbolic.wallet_key (lit "gone"))]).
Proof. vm_compute. reflexivity. Qed.

Lemma shared_views_keep_unfetched_grants_witness :
  ∃ entries w2 fx,
    getFilesSharedWithMe (Some idl) bobWallet ledger = (inr entries, w2, fx)
    ∧ Joined idl ledger
        (List.filter (λ a, isActive (account a))
           (SpecLedger.scanGrants {| offset := 72; bytes := lit "Bob" |} ledger))
        entries w2
    ∧ map sharedAccess entries
      = List.filter (λ a, isActive (account a))
          (SpecLedger.scanGrants {| offset := 72; bytes := lit "Bob" |} ledger).
Proof.
  apply (proj1 (shared_views_keep_unfetched_grants (H0 := SpecLedger.cluster)
                  (Some idl) bobWallet idl bob ledger eq_refl eq_refl eq_refl)
           (SpecLedger.scanGrants {| offset := 72; bytes := lit "Bob" |} ledger) ledger).
  reflexivity.
Defined.

(** The clock of [ledger] shows second 200 and the grant on the report ran
    out at second 100; its active flag is still set, and both views list
    it. *)
Lemma expired_grant_is_listed :
  (∃ entry rest w fx,
     getFilesSharedWithMe (Some idl) bobWallet ledger = (inr (entry :: rest), w, fx)
     ∧ account (sharedAccess entry) = reportGrant)
  ∧ (∃ entry rest w fx,
       getFilesIShared (Some idl) aliceWallet ledger = (inr (entry :: rest), w, fx)
       ∧ account (sharedAccess entry) = reportGrant)
  ∧ isActive reportGrant = true
  ∧ expiresAt reportGrant = Some 100%Z
  ∧ (Date_now ledger / 1000 = 200)%Z.
Proof.
  split; [| split].
  - eexists _, _, _, _. split; [vm_compute; reflexivity | reflexivity].
  - eexists _, _, _, _. split; [vm_compute; reflexivity | reflexivity].
  - repeat split.
Qed.

Lemma shared_views_list_active_grants_witness :
  ∃ entries w2 fx,
    getFilesIShared (Some idl) aliceWallet ledger = (inr entries, w2, fx)
    ∧ ∀ sa, sa ∈ map sharedAccess entries
            ↔ sa ∈ SpecLedger.scanGrants {| offset := 40; bytes := lit "Alice" |} ledger
              ∧ isActive (account sa) = true.
Proof.
  apply (proj2 (shared_views_list_active_grants (H0 := SpecLedger.cluster)
                  (Some idl) aliceWallet idl alice ledger eq_refl eq_refl eq_refl)
           (SpecLedger.scanGrants {| offset := 40; bytes := lit "Alice" |} ledger) ledger).
  reflexivity.
Defined.

(** The revocation of Bob's grant is in flight and the button is pressed
    again: the handler returns without a toast, a call or a transaction. *)
Lemma second_revoke_is_dropped_silently :
  SharedFiles.handleRevoke (Some idl) aliceWallet reportEntry viewRevoking ledger
  = (viewRevoking, [], ledger, []).
Proof. vm_compute. reflexivity. Qed.

Lemma pending_keys_are_guarded_witness :
  FileList.handlePrivacyToggle reportRow true listProcessing
  = (listProcessing,
     [Toast toast_error "Transaction in progress"
        (text (lit "Please wait for the current transaction to complete")) None])
  ∧ SharedFiles.handleRevoke (Some idl) aliceWallet reportEntry viewRevoking ledger
    = (viewRevoking, [], ledger, []).
Proof.
  pose proof (pending_keys_are_guarded (H0 := SpecLedger.cluster))
    as (Htoggle & Hrevoke & _).
  split.
  - apply Htoggle. vm_compute. reflexivity.
  - apply (Hrevoke (Some idl) aliceWallet reportEntry reportFile); [reflexivity |].
    vm_compute. reflexivity.
Defined.

(** Alice confirms the dialog against a node that answers "AlreadyProcessed":
    among the effects is an error toast. *)
Lemma already_processed_shows_an_error_toast :
  snd (fst (fst (FileList.executePrivacyToggle (H0 := replayNode)
                   (Some idl) aliceWallet listConfirming ledger)))
  = [Toast toast_info "Updating privacy..."
       (text (lit "Processing blockchain transaction")) None;
     Call (call_makePublic (lit "report.pdf"));
     Console_error "Privacy toggle error:"
       (newError "Transaction simulation failed: AlreadyProcessed");
     Toast toast_error "Transaction Already Processed"
       (text (lit "This transaction was already submitted. Refreshing file list..."))
       (Some 3000);
     SetTimeout cb_fetchFiles 1000].
Proof. vm_compute. reflexivity. Qed.

Lemma already_processed_is_reported_and_refreshed_witness :
  FileList.processingFiles
    (fst (fst (fst (FileList.executePrivacyToggle (H0 := replayNode)
                      (Some idl) aliceWallet listConfirming ledger))))
  = (∅ ∪ {[0]}) ∖ {[0]}
  ∧ timersOf (snd (fst (fst (FileList.executePrivacyToggle (H0 := replayNode)
                               (Some idl) aliceWallet listConfirming ledger))))
    = [cb_fetchFiles].
Proof.
  pose proof (already_processed_is_reported_and_refreshed (H0 := replayNode)
                (Some idl) aliceWallet listConfirming ledger reportRow true
                (newError "Transaction simulation failed: AlreadyProcessed") ledger
                [Rpc {| instruction := ix_makePublic;
                        accounts := [("fileRecord", reportAddress); ("owner", alice)] |}]
                eq_refl eq_refl eq_refl eq_refl) as [Hrun _].
  rewrite Hrun. split; reflexivity.
Defined.

Lemma pending_keys_are_released_witness :
  ∃ st2 fx w2 sent,
    FileList.executePrivacyToggle (Some idl) aliceWallet listConfirming ledger
    = (st2, fx, w2, sent)
    ∧ FileList.processingFiles (FileList.drain true (timersOf fx) st2)
      = ∅ ∖ {[0]}.
Proof.
  destruct (FileList.executePrivacyToggle (H0 := SpecLedger.cluster)
              (Some idl) aliceWallet listConfirming ledger)
    as [[[st2 fx] w2] sent] eqn:Hrun.
  exists st2, fx, w2, sent. split; [reflexivity |].
  apply (proj1 (pending_keys_are_released (H0 := SpecLedger.cluster))
           (Some idl) aliceWallet listConfirming ledger st2 fx w2 sent true Hrun).
Defined.

(** Alice makes the report public twice. *)
Lemma visibility_calls_are_idempotent_witness :
  ∃ sig1 l1 fx1 sig2 l2 fx2,
    makePublic (Some idl) aliceWallet (lit "report.pdf") ledger = (inr sig1, l1, fx1)
    ∧ makePublic (Some idl) aliceWallet (lit "report.pdf") l1 = (inr sig2, l2, fx2)
    ∧ isPublic <$> SpecLedger.find reportAddress (SpecLedger.fileRecords l1) = Some true
    ∧ isPublic <$> SpecLedger.find reportAddress (SpecLedger.fileRecords l2) = Some true
    ∧ SpecLedger.fileRecords l2 = SpecLedger.fileRecords l1
    ∧ SpecLedger.grants l2 = SpecLedger.grants l1
    ∧ SpecLedger.bookkeeping l2 = SpecLedger.bookkeeping l1
    ∧ SpecLedger.confirmed l2 = SpecLedger.confirmed l1 + 1.
Proof.
  apply (visibility_calls_are_idempotent (Some idl) aliceWallet idl alice
           (lit "report.pdf") reportAddress 255 report true ledger);
    reflexivity.
Defined.

(** Two file names that differ only in an unpaired surrogate are encoded
    alike, so for every library, owner and world they are given the same
    address; on the symbolic library, that address. *)
Lemma unpaired_surrogates_share_an_address :
  [0xD800] ≠ [0xD801]
  ∧ (∀ (lib : Web3) (node : Cluster) owner w,
       getFileRecordPDA owner [0xD800] w = getFileRecordPDA owner [0xD801] w)
  ∧ getFileRecordPDA alice [0xD800] ledger
    = (inr (Symbolic.derived (lit "file" ++ lit "Alice" ++ [0xEF; 0xBF; 0xBD])
                             (Symbolic.wallet_key (lit "SoLDriVe"))),
       ledger, [])
  ∧ getFileRecordPDA alice [0xD801] ledger
    = (inr (Symbolic.derived (lit "file" ++ lit "Alice" ++ [0xEF; 0xBF; 0xBD])
                             (Symbolic.wallet_key (lit "SoLDriVe"))),
       ledger, []).
Proof.
  split; [done |]. split; [| split; reflexivity].
  intros lib node owner w. reflexivity.
Qed.

(** The symbolic library derives an address from the concatenation of the
    seeds, as the real one does: where the seeds are cut makes no
    difference. *)
Example seed_boundaries_are_not_hashed :
  findProgramAddressSync [lit "ab"; lit "c"] PROGRAM_ID
  = findProgramAddressSync [lit "a"; lit "bc"] PROGRAM_ID.
Proof. reflexivity. Qed.

(** On the symbolic library: two files of Alice. *)
Lemma derived_addresses_follow_the_encoded_seeds_witness :
  getFileRecordPDA alice (lit "a.txt") ledger
  = (inr (Symbolic.derived (lit "file" ++ lit "Alice" ++ lit "a.txt")
                           (Symbolic.wallet_key (lit "SoLDriVe"))), ledger, [])
  ∧ Symbolic.derived (lit "file" ++ lit "Alice" ++ lit "a.txt")
                     (Symbolic.wallet_key (lit "SoLDriVe"))
    ≠ Symbolic.derived (lit "file" ++ lit "Alice" ++ lit "b.txt")
                       (Symbolic.wallet_key (lit "SoLDriVe")).
Proof.
  split; [reflexivity |].
  pose proof (derived_addresses_follow_the_encoded_seeds (H0 := SpecLedger.cluster))
    as (_ & _ & _ & _ & Hdistinct).
  destruct (Hdistinct
              ltac:(intros seeds1 seeds2 a bump1 bump2 [= <-] [= ->]; reflexivity))
    as (Hnames & _).
  destruct (Hnames alice (lit "a.txt") (lit "b.txt") ledger ledger _ _ eq_refl eq_refl)
    as [_ Hwf].
  intros Heq. apply (Hwf eq_refl eq_refl) in Heq. discriminate Heq.
Defined.

(** Alice confirms the dialog for the report; while the transaction is in
    flight the list is fetched again and she flips the switch of the new
    row: the dialog asks about a row whose key object is not pending. *)
Lemma dialog_key_is_not_pending_witness :
  ∃ c, FileList.run [FileList.flip reportRow true; FileList.confirm;
                     FileList.flip reportRowAgain true] FileList.initial = Some c
       ∧ FileList.file (FileList.confirmDialog (FileList.state c)) = Some reportRowAgain
       ∧ FileList.processingFiles (FileList.state c) = {[0]}
       ∧ (FileList.reference (FileList.publicKey reportRowAgain)
          ∉ FileList.processingFiles (FileList.state c))
       ∧ (FileList.reference (FileList.publicKey reportRowAgain) ∉ FileList.busy c).
Proof.
  destruct (FileList.run [FileList.flip reportRow true; FileList.confirm;
                          FileList.flip reportRowAgain true] FileList.initial)
    as [c |] eqn:Hrun; [| by vm_compute in Hrun].
  assert (Hc : FileList.file (FileList.confirmDialog (FileList.state c))
               = Some reportRowAgain
               ∧ FileList.processingFiles (FileList.state c) = {[0]}).
  { vm_compute in Hrun. injection Hrun as <-. split; [reflexivity |].
    vm_compute. reflexivity. }
  destruct Hc as [Hfile Hset].
  exists c. split; [reflexivity |]. split; [exact Hfile |]. split; [exact Hset |].
  exact (dialog_key_is_not_pending _ c reportRowAgain Hrun Hfile).
Defined.

(** C2, where the code fails it.  Alice's list shows the
    report (first fetch, key object 0).  She makes it public and confirms;
    the transaction is in flight and key object 0 is in the processing set.
    The list is fetched again (the [refresh] property has changed, or the
    timer of another toggle has fired), which gives the row of the same
    file a new key object, 1.  She flips the switch of the report again:
    the guard lets it pass without a toast, the dialog opens, she confirms,
    and a second [makePublic] of the same file is called while the first is
    still waiting.  The ledger confirms both transactions. *)
Lemma refetched_file_is_submitted_twice :
  getUserFiles (Some idl) aliceWallet ledger
  = (inr [reportFile], ledger, [AllFileRecord {| offset := 8; bytes := lit "Alice" |}])
  ∧ FileList.decode 0 [reportFile] = [reportRow]
  ∧ FileList.decode 1 [reportFile] = [reportRowAgain]
  ∧ (∃ c,
       FileList.run [FileList.refetch true; FileList.fetched (inr [reportRow]);
                     FileList.flip reportRow true; FileList.confirm;
                     FileList.refetch true; FileList.fetched (inr [reportRowAgain])]
         FileList.initial = Some c
       ∧ FileList.files (FileList.state c) = [reportRowAgain]
       ∧ FileList.loading (FileList.state c) = false
       ∧ FileList.awaiting c = [(reportRow, true)]
       ∧ FileList.processingFiles (FileList.state c) = {[0]}
       ∧ FileList.handlePrivacyToggle reportRowAgain true (FileList.state c)
         = (FileList.setConfirmDialog
              {| FileList.open := true; FileList.file := Some reportRowAgain;
                 FileList.newPrivacy := true |} (FileList.state c), []))
  ∧ (∃ c,
       FileList.run [FileList.refetch true; FileList.fetched (inr [reportRow]);
                     FileList.flip reportRow true; FileList.confirm;
                     FileList.refetch true; FileList.fetched (inr [reportRowAgain]);
                     FileList.flip reportRowAgain true; FileList.confirm]
         FileList.initial = Some c
       ∧ FileList.awaiting c = [(reportRow, true); (reportRowAgain, true)]
       ∧ FileList.issued c
         = [call_getUserFiles; call_makePublic (lit "report.pdf");
            call_getUserFiles; call_makePublic (lit "report.pdf")])
  ∧ (∃ sig1 l1 fx1 sig2 l2 fx2,
       makePublic (Some idl) aliceWallet (lit "report.pdf") ledger = (inr sig1, l1, fx1)
       ∧ makePublic (Some idl) aliceWallet (lit "report.pdf") l1 = (inr sig2, l2, fx2)
       ∧ sentTxs (fx1 ++ fx2)
         = [{| instruction := ix_makePublic;
               accounts := [("fileRecord", reportAddress); ("owner", alice)] |};
            {| instruction := ix_makePublic;
               accounts := [("fileRecord", reportAddress); ("owner", alice)] |}]
       ∧ SpecLedger.confirmed l2 = SpecLedger.confirmed ledger + 2).
Proof.
  split; [vm_compute; reflexivity |]. split; [reflexivity |]. split; [reflexivity |].
  split; [| split].
  - eexists. split; [vm_compute; reflexivity |].
    repeat split; vm_compute; reflexivity.
  - eexists. split; [vm_compute; reflexivity |]. split; reflexivity.
  - eexists _, _, _, _, _, _.
    split; [vm_compute; reflexivity |]. split; [vm_compute; reflexivity |].
    split; reflexivity.
Qed.

Lemma revokeKey_tells_grants_apart_witness :
  (45 ∉ lit "Bob")
  ∧ SharedFiles.revokeKey (lit "report.pdf") (lit "Bob") = lit "report.pdf-Bob"
  ∧ lit "report.pdf" = lit "report.pdf" ∧ lit "Bob" = lit "Bob".
Proof.
  assert (Hbob : 45 ∉ lit "Bob").
  { apply (bool_decide_unpack _). vm_compute. exact I. }
  split; [exact Hbob |]. split; [reflexivity |].
  apply (revokeKey_tells_grants_apart (lit "report.pdf") (lit "report.pdf")
           (lit "Bob") (lit "Bob") Hbob Hbob eq_refl).
Defined.

(** Alice creates her first file on an empty ledger: the configuration and
    her profile are created on the way. *)
Lemma createFile_creates_bookkeeping_lazily_witness :
  ∃ r w' fx,
    createFile (Some idl) aliceWallet (lit "report.pdf") 2048 [] 4 SpecLedger.empty
    = (r, w', fx)
    ∧ sentTxs fx
      = [{| instruction := initialize;
            accounts := [("config", configAddress); ("authority", alice);
                         ("systemProgram", SystemProgram_programId)] |};
         {| instruction := ix_createUserProfile;
            accounts := [("userProfile", aliceProfile); ("user", alice);
                         ("systemProgram", SystemProgram_programId)] |};
         {| instruction := ix_createFile (lit "report.pdf") 2048 [] 4 0;
            accounts := [("fileRecord", reportAddress); ("config", configAddress);
                         ("userProfile", aliceProfile); ("owner", alice);
                         ("systemProgram", SystemProgram_programId)] |}].
Proof.
  destruct (createFile (H0 := SpecLedger.cluster) (Some idl) aliceWallet
              (lit "report.pdf") 2048 [] 4 SpecLedger.empty)
    as [[r w'] fx] eqn:Hrun.
  exists r, w', fx. split; [reflexivity |].
  pose proof (createFile_creates_bookkeeping_lazily (H0 := SpecLedger.cluster)
                (Some idl) aliceWallet idl alice (lit "report.pdf") 2048 [] 4
                reportAddress configAddress aliceProfile
                255 255 255 SpecLedger.empty (inr None) SpecLedger.empty (inr None)
                SpecLedger.empty r w' fx
                eq_refl eq_refl eq_refl eq_refl eq_refl eq_refl eq_refl Hrun) as Hall.
  cbv zeta in Hall. destruct Hall as (_ & _ & _ & _ & _ & _ & Hboth & _).
  refine (proj1 (Hboth _ _ _ _ _ eq_refl eq_refl _ _ _)); vm_compute; reflexivity.
Defined.

(** What Alice sends to make the report public names the record derived
    from her key and the name of the file. *)
Lemma requests_address_the_callers_own_record_witness :
  ∃ r w' fx,
    makePublic (Some idl) aliceWallet (lit "report.pdf") ledger = (r, w', fx)
    ∧ ∀ tx, tx ∈ sentTxs fx → onFileRecord (instruction tx) = true →
            accountNamed "fileRecord" (accounts tx) = Some reportAddress
            ∧ accountNamed "owner" (accounts tx) = Some alice.
Proof.
  destruct (makePublic (H0 := SpecLedger.cluster) (Some idl) aliceWallet
              (lit "report.pdf") ledger) as [[r w'] fx] eqn:Hrun.
  exists r, w', fx. split; [reflexivity |]. intros tx.
  pose proof (requests_address_the_callers_own_record (H0 := SpecLedger.cluster)
                (Some idl) aliceWallet alice (lit "report.pdf") reportAddress 255
                eq_refl eq_refl) as Hall.
  cbv zeta in Hall. destruct Hall as (_ & _ & _ & Hpublic & _).
  exact (Hpublic ledger r w' fx tx Hrun).
Defined.

(** Alice grants Bob access to the report and revokes it. *)
Lemma revokeAccess_addresses_the_granted_account_witness :
  ∃ rg wg fxg rr wr fxr,
    grantAccess (Some idl) aliceWallet (lit "report.pdf") (lit "Bob") read (Some 0%Z) ledger
    = (rg, wg, fxg)
    ∧ revokeAccess (Some idl) aliceWallet (lit "report.pdf") (lit "Bob") wg
      = (rr, wr, fxr)
    ∧ ∀ tg tr, tg ∈ sentTxs fxg → tr ∈ sentTxs fxr →
        ∃ grantee account,
          instruction tg = ix_grantAccess grantee read None
          ∧ accountNamed "sharedAccess" (accounts tg) = Some account
          ∧ accountNamed "sharedAccess" (accounts tr) = Some account.
Proof.
  destruct (grantAccess (H0 := SpecLedger.cluster) (Some idl) aliceWallet
              (lit "report.pdf") (lit "Bob") read (Some 0%Z) ledger)
    as [[rg wg] fxg] eqn:Hg.
  destruct (revokeAccess (H0 := SpecLedger.cluster) (Some idl) aliceWallet
              (lit "report.pdf") (lit "Bob") wg) as [[rr wr] fxr] eqn:Hr.
  exists rg, wg, fxg, rr, wr, fxr. split; [reflexivity |]. split; [exact Hr |].
  intros tg tr Htg Htr.
  destruct (revokeAccess_addresses_the_granted_account (H0 := SpecLedger.cluster)
              (Some idl) aliceWallet (lit "report.pdf") (lit "Bob") read (Some 0%Z)
              ledger rg wg fxg wg rr wr fxr Hg Hr) as (_ & _ & _ & Hsame & _).
  destruct (Hsame tg tr Htg Htr) as (grantee & account & _ & Hix & _ & Hag & Har & _).
  by exists grantee, account.
Defined.

(** The dialog is confirmed after the wallet was disconnected. *)
Lemma handlers_report_a_missing_wallet_witness :
  FileList.executePrivacyToggle None noWallet listConfirming ledger
  = (FileList.setProcessingFiles (λ prev, prev ∖ {[0]})
       (FileList.setProcessingFiles (λ prev, prev ∪ {[0]})
          (FileList.setConfirmDialog FileList.closedDialog listConfirming)),
     [Toast toast_info "Updating privacy..."
        (text (lit "Processing blockchain transaction")) None;
      Call (call_makePublic (lit "report.pdf"));
      Console_error "Privacy toggle error:" (newError "Wallet not connected");
      Toast toast_error "Transaction Failed" (text (lit "Wallet not connected"))
        (Some 5000)],
     ledger, []).
Proof.
  apply (proj1 (handlers_report_a_missing_wallet (H0 := SpecLedger.cluster)
                  None noWallet (or_introl eq_refl))
           listConfirming reportRow ledger eq_refl).
Defined.

(** Alice confirms the dialog for the report; the transaction is confirmed
    and the timer fires. *)
Lemma processing_set_empties_witness :
  ∃ c n c',
    FileList.run [FileList.flip reportRow true; FileList.confirm] FileList.initial
    = Some c
    ∧ FileList.processingFiles (FileList.state c) = {[0]}
    ∧ FileList.run (map (FileList.settled 0) [inr (lit "signature")]
                    ++ replicate n (FileList.fired 0 true)) c = Some c'
    ∧ FileList.processingFiles (FileList.state c') = ∅.
Proof.
  destruct (FileList.run [FileList.flip reportRow true; FileList.confirm]
              FileList.initial) as [c |] eqn:Hrun; [| by vm_compute in Hrun].
  assert (Hc : FileList.processingFiles (FileList.state c) = {[0]}
               ∧ List.length [@inr JsError jsstring (lit "signature")]
                 = List.length (FileList.awaiting c)).
  { vm_compute in Hrun. injection Hrun as <-. split; [| reflexivity].
    vm_compute. reflexivity. }
  destruct Hc as [Hset Hlen].
  destruct (processing_set_empties _ c [inr (lit "signature")] true Hrun Hlen)
    as (n & c' & Hrun' & _ & _ & _ & Hempty).
  by exists c, n, c'.
Defined.

(** Alice presses the revoke button of the report; the node rejects the
    transaction. *)
Lemma revoking_keys_empty_out_witness :
  ∃ c c',
    SharedFiles.run [SharedFiles.press reportEntry] SharedFiles.initial = Some c
    ∧ SharedFiles.revokingKeys (SharedFiles.state c) = {[lit "report.pdf-Bob"]}
    ∧ SharedFiles.run (map (SharedFiles.settled 0) [inl (newError "Blockhash not found")]) c
      = Some c'
    ∧ SharedFiles.revokingKeys (SharedFiles.state c') = ∅.
Proof.
  destruct (SharedFiles.run [SharedFiles.press reportEntry] SharedFiles.initial)
    as [c |] eqn:Hrun; [| by vm_compute in Hrun].
  assert (Hc : SharedFiles.revokingKeys (SharedFiles.state c) = {[lit "report.pdf-Bob"]}
               ∧ List.length [@inl JsError jsstring (newError "Blockhash not found")]
                 = List.length (SharedFiles.awaiting c)).
  { vm_compute in Hrun. injection Hrun as <-. split; [| reflexivity].
    vm_compute. reflexivity. }
  destruct Hc as [Hset Hlen].
  destruct (revoking_keys_empty_out _ c
              [inl (newError "Blockhash not found")] Hrun Hlen)
    as (c' & Hrun' & _ & Hempty & _).
  by exists c, c'.
Defined.

End Runs.
